(** * geometry_functions: wiggly line generation and total bearing change

    A shallow embedding of [src/1_geometry/geometry_functions.py]:

    - [create_wiggly_line] samples a sinusoidally perturbed path between
      two points and hands the coordinates to shapely's [LineString];
    - [total_bearing_change_planar] sums, per row of a GeoDataFrame, the
      absolute bearing changes between consecutive non-degenerate segments.

    Number model.  Python floats are idealised as real numbers ([R]): [+],
    [-], [*], [/], [sqrt], [sin], [atan] are the exact operations, and the
    float remainder [a % b] is [a - b * floor (a / b)].  Rounding, infinities
    and NaN are outside the model.

    Rounding.  Where a statement is about the exact doubles the generator
    returns, the module [binary64] replays [create_wiggly_line] on the
    kernel's IEEE 754 binary64 numbers; numpy's [sin] and [hypot], which
    have no kernel primitive, are arguments of that replay.

    Library model.  numpy, pandas and shapely are not part of the
    repository; the handful of calls used by the two functions
    ([np.hypot], [np.linspace], [np.arctan2], [np.degrees], boolean-mask
    indexing, [groupby().sum()], [Series.loc.__setitem__], [LineString],
    [get_coordinates]) are modelled after their documented behaviour in the
    modules [np], [pd] and [shapely] below, including the exceptions they
    raise on the inputs the two functions can pass them. *)

From Stdlib Require Import String Reals Lra Lia ZArith Bool Arith List.
From Stdlib Require Import DecimalString.
From Stdlib Require Floats.
Import ListNotations.

Open Scope R_scope.

(** ** Exceptions and the error monad *)

Inductive exception : Type :=
| ValueError (msg : string)
| GEOSException (msg : string).

Inductive result (A : Type) : Type :=
| Return (a : A)
| Raise (e : exception).

Arguments Return {A} a.
Arguments Raise {A} e.

Definition bind {A B : Type} (c : result A) (k : A -> result B) : result B :=
  match c with
  | Return a => k a
  | Raise e => Raise e
  end.

Notation "x <- c ;; k" := (bind c (fun x => k))
  (at level 61, c at next level, right associativity).

Definition raises {A : Type} (c : result A) : Prop :=
  exists e, c = Raise e.

(** ** Arrays

    One-dimensional numpy arrays are lists; element-wise binary operations
    are [zipWith], [a[:-1]] is [removelast a], [a[1:]] is [tl a], and
    [a[m]] for a boolean array [m] of the same length is [mask m a]. *)

Section Arrays.
Context {A B C : Type}.

Fixpoint zipWith (f : A -> B -> C) (l1 : list A) (l2 : list B) : list C :=
  match l1, l2 with
  | a :: l1', b :: l2' => f a b :: zipWith f l1' l2'
  | _, _ => []
  end.

Fixpoint mask (m : list bool) (l : list A) : list A :=
  match m, l with
  | b :: m', a :: l' => if b then a :: mask m' l' else mask m' l'
  | _, _ => []
  end.

(** [a[-1] = v] on a non-empty array. *)
Fixpoint set_last (l : list A) (v : A) : list A :=
  match l with
  | [] => []
  | [_] => [v]
  | a :: l' => a :: set_last l' v
  end.

(** [a[i] = v] for an in-range position [i]. *)
Fixpoint set_nth (i : nat) (v : A) (l : list A) : list A :=
  match l, i with
  | [], _ => []
  | _ :: l', O => v :: l'
  | a :: l', S i' => a :: set_nth i' v l'
  end.
End Arrays.

(** Comparison of floats, as the booleans Python computes. *)
Definition Reqb (a b : R) : bool := if Req_dec_T a b then true else false.
Definition Rneqb (a b : R) : bool := negb (Reqb a b).

(** ** numpy *)

Module np.

Definition pi : R := PI.

Definition hypot (x y : R) : R := sqrt (x * x + y * y).

Definition abs (x : R) : R := Rabs x.

Definition degrees (x : R) : R := x * (180 / PI).

(** [np.arctan2 y x]: the angle of the point [(x, y)], in (-pi, pi]. *)
Definition arctan2 (y x : R) : R :=
  if Rlt_dec 0 x then atan (y / x)
  else if Rlt_dec x 0 then
    (if Rle_dec 0 y then atan (y / x) + PI else atan (y / x) - PI)
  else if Rlt_dec 0 y then PI / 2
  else if Rlt_dec y 0 then - (PI / 2)
  else 0.

(** [np.remainder a b], the float [a % b]; the result has the sign of [b]. *)
Definition remainder (a b : R) : R := a - b * IZR (Zfloor (a / b)).

(** [np.any]. *)
Definition any (m : list bool) : bool := existsb (fun b => b) m.

(** [np.column_stack([xs, ys])]: the rows [(xs[k], ys[k])]. *)
Definition column_stack (xs ys : list R) : list (R * R) := combine xs ys.

(** [np.linspace(start, stop, num)] with the default [endpoint=True]:
    a negative [num] is refused; otherwise the samples are
    [arange(num) * step + start] with [step = (stop - start) / (num - 1)],
    and the last one is set to [stop] when there are at least two. *)
Definition linspace (start stop : R) (num : Z) : result (list R) :=
  if (num <? 0)%Z then
    Raise (ValueError ("Number of samples, "
                         ++ NilZero.string_of_int (Z.to_int num)
                         ++ ", must be non-negative."))
  else
    let div := (num - 1)%Z in
    let delta := stop - start in
    let y := map INR (seq 0 (Z.to_nat num)) in
    let y :=
      if (0 <? div)%Z then
        let step := delta / IZR div in
        if Reqb step 0
        then map (fun v => v / IZR div * delta) y
        else map (fun v => v * step) y
      else map (fun v => v * delta) y in
    let y := map (fun v => v + start) y in
    Return (if (1 <? num)%Z then set_last y stop else y).

End np.

(** ** shapely *)

Definition Point : Type := (R * R)%type.

Module shapely.

(** A geometry is known to the two functions only through its ordered
    coordinate sequence. *)
Record Geometry : Type := mkGeometry { coords : list Point }.

(** [LineString(coordinates)]: an empty array gives the empty line, a
    single coordinate is rejected by GEOS, two or more build the line. *)
Definition LineString (coordinates : list Point) : result Geometry :=
  match coordinates with
  | [_] => Raise (GEOSException
             "IllegalArgumentException: point array must contain 0 or >1 elements")
  | _ => Return (mkGeometry coordinates)
  end.

(** [get_coordinates(geoms, return_index=True)]: every vertex of every
    geometry, in order, each paired with the position of its geometry.
    The two returned arrays are the projections of this list. *)
Fixpoint get_coordinates_from (i : nat) (geoms : list Geometry)
  : list (Point * nat) :=
  match geoms with
  | [] => []
  | g :: gs => map (fun p => (p, i)) (coords g) ++ get_coordinates_from (S i) gs
  end.

Definition get_coordinates (geoms : list Geometry) : list Point * list nat :=
  let cp := get_coordinates_from 0 geoms in
  (map fst cp, map snd cp).

End shapely.

(** ** create_wiggly_line *)

Definition create_wiggly_line (p0 p1 : Point) (n : Z) (amp : R)
  : result shapely.Geometry :=
  let '(x0, y0) := p0 in
  let '(x1, y1) := p1 in
  let dx := x1 - x0 in
  let dy := y1 - y0 in
  let L := np.hypot dx dy in
  if Reqb L 0 then Raise (ValueError "Points must be different")
  else
    (* Unit direction and perpendicular vectors *)
    let ux := dx / L in
    let uy := dy / L in
    let nx := - uy in
    let ny := ux in
    (* parameter t along the line *)
    t <- np.linspace 0 1 n ;;
    (* base straight line *)
    let xs := map (fun tk => x0 + tk * dx) t in
    let ys := map (fun tk => y0 + tk * dy) t in
    (* wiggle offset perpendicular to the line *)
    let wiggle := map (fun tk => amp * sin (2 * np.pi * tk * 3)) t in
    let xs := zipWith Rplus xs (map (fun w => w * nx) wiggle) in
    let ys := zipWith Rplus ys (map (fun w => w * ny) wiggle) in
    shapely.LineString (np.column_stack xs ys).

(** The defaults [n=100], [amp=5] of the Python signature. *)
Definition create_wiggly_line_default (p0 p1 : Point) : result shapely.Geometry :=
  create_wiggly_line p0 p1 100 5.

(** ** The sampled path in the words of the specification

    Unit direction, its left-hand normal, the offset point at parameter
    [t] and the [k]-th of [n] uniformly spaced parameters of [0, 1]. *)

Definition unit_direction (p0 p1 : Point) : R * R :=
  let dx := fst p1 - fst p0 in
  let dy := snd p1 - snd p0 in
  let L := np.hypot dx dy in
  (dx / L, dy / L).

Definition normal (p0 p1 : Point) : R * R :=
  (- snd (unit_direction p0 p1), fst (unit_direction p0 p1)).

Definition wiggly_point (p0 p1 : Point) (amp t : R) : Point :=
  (fst p0 + t * (fst p1 - fst p0) + amp * sin (2 * PI * t * 3) * fst (normal p0 p1),
   snd p0 + t * (snd p1 - snd p0) + amp * sin (2 * PI * t * 3) * snd (normal p0 p1)).

Definition sample_t (n : Z) (k : nat) : R := INR k / IZR (n - 1).

(** ** pandas *)

Module pd.

(** A float Series: row labels and one value per row. *)
Record Series : Type := mkSeries { index : list Z; values : list R }.

(** [pd.Series(v, index=index)]. *)
Definition Series_const (v : R) (index : list Z) : Series :=
  mkSeries index (map (fun _ => v) index).

(** One step of a grouped sum: add [v] to the group [k] of a key-sorted
    list of groups, opening the group when it is new. *)
Fixpoint group_add (k : nat) (v : R) (s : list (nat * R)) : list (nat * R) :=
  match s with
  | [] => [(k, v)]
  | (k', v') :: s' =>
      if (k <? k')%nat then (k, v) :: s
      else if (k =? k')%nat then (k', v' + v) :: s'
      else (k', v') :: group_add k v s'
  end.

(** [pd.Series(vals).groupby(pd.Series(keys)).sum()]: one row per
    distinct key, keys ascending, each with the sum of its values. *)
Definition groupby_sum (vals : list R) (keys : list nat) : list (nat * R) :=
  fold_left (fun s kv => group_add (fst kv) (snd kv) s) (combine keys vals) [].

(** Positions of the rows carrying label [l]. *)
Fixpoint positions_from (i : nat) (index : list Z) (l : Z) : list nat :=
  match index with
  | [] => []
  | x :: index' =>
      (if (x =? l)%Z then [i] else []) ++ positions_from (S i) index' l
  end.

(** The positional indexer of a list of labels: for each label in turn,
    every row that carries it. *)
Definition get_indexer (index : list Z) (labels : list Z) : list nat :=
  flat_map (positions_from 0 index) labels.

(** [out.loc[labels] = vals] for a list of labels that all occur in the
    index and an array of values.  The labels are resolved to row positions
    (on an index with repeated labels a label selects every row that
    carries it) and the values are written at those positions, one value
    per selected row; pandas refuses the assignment with a ValueError when
    the number of selected rows differs from the number of values. *)
Definition loc_setitem (out : Series) (labels : list Z) (vals : list R)
  : result Series :=
  let indexer := get_indexer (index out) labels in
  if (length indexer =? length vals)%nat then
    Return (mkSeries (index out)
              (fold_left (fun vs pv => set_nth (fst pv) (snd pv) vs)
                 (combine indexer vals) (values out)))
  else
    Raise (ValueError
      "cannot set using a list-like indexer with a different length than the value").

End pd.

(** ** total_bearing_change_planar *)

(** A GeoDataFrame, as far as the function looks at it: rows of a label
    ([gdf.index]) and a geometry ([gdf[geom_col]]). *)
Definition GeoDataFrame : Type := list (Z * shapely.Geometry).

Definition gdf_index (gdf : GeoDataFrame) : list Z := map fst gdf.
Definition gdf_geometry (gdf : GeoDataFrame) : list shapely.Geometry := map snd gdf.

(** Bearing clockwise from North of a displacement, line 93 of the source. *)
Definition bearing (dx dy : R) : R :=
  np.remainder (np.degrees (np.arctan2 dx dy) + 360) 360.

(** Smallest absolute angle difference, line 108 of the source. *)
Definition turn_angle (b0 b1 : R) : R :=
  np.abs (np.remainder (b1 - b0 + 180) 360 - 180).

Definition total_bearing_change_planar (gdf : GeoDataFrame) : result pd.Series :=
  let index := gdf_index gdf in
  (* Pull all coordinates in one shot, together with their parent row index *)
  let '(coords, parent_ix) := shapely.get_coordinates (gdf_geometry gdf) in
  if (length coords <? 2)%nat then Return (pd.Series_const 0 index)
  else
    (* Valid consecutive coordinate pairs stay in the same geometry *)
    let same_geom_pair := zipWith Nat.eqb (removelast parent_ix) (tl parent_ix) in
    if negb (np.any same_geom_pair) then Return (pd.Series_const 0 index)
    else
      (* Build segment endpoints *)
      let c0 := mask same_geom_pair (removelast coords) in
      let c1 := mask same_geom_pair (tl coords) in
      let seg_parent := mask same_geom_pair (removelast parent_ix) in
      let dx := zipWith Rminus (map fst c1) (map fst c0) in
      let dy := zipWith Rminus (map snd c1) (map snd c0) in
      (* Drop zero-length segments *)
      let nz := zipWith orb (map (fun d => Rneqb d 0) dx)
                            (map (fun d => Rneqb d 0) dy) in
      if negb (np.any nz) then Return (pd.Series_const 0 index)
      else
        let dx := mask nz dx in
        let dy := mask nz dy in
        let seg_parent := mask nz seg_parent in
        let bearings := zipWith bearing dx dy in
        (* Bearing changes are between adjacent segments within each geometry *)
        let same_geom_adjacent_segment :=
          zipWith Nat.eqb (removelast seg_parent) (tl seg_parent) in
        if negb (np.any same_geom_adjacent_segment)
        then Return (pd.Series_const 0 index)
        else
          let b0 := mask same_geom_adjacent_segment (removelast bearings) in
          let b1 := mask same_geom_adjacent_segment (tl bearings) in
          let parents_for_turn := mask same_geom_adjacent_segment (tl seg_parent) in
          let turn := zipWith (fun x1 x0 => turn_angle x0 x1) b1 b0 in
          (* Aggregate per geometry index *)
          let s := pd.groupby_sum turn parents_for_turn in
          (* Return aligned to gdf index (missing -> 0) *)
          let out := pd.Series_const 0 index in
          pd.loc_setitem out
            (map (fun i => nth i index 0%Z) (map fst s)) (map snd s).

(** ** The per-line reading of the aggregator

    What the vectorised pipeline computes for one line, written over that
    line's own coordinate sequence. *)

(** Consecutive pairs of a list. *)
Definition adj {A : Type} (l : list A) : list (A * A) :=
  combine (removelast l) (tl l).

Definition Rsum (l : list R) : R := fold_right Rplus 0 l.

(** Displacements [(dx, dy)] of the consecutive vertex pairs of a line. *)
Definition displacements (line : list Point) : list (R * R) :=
  map (fun s => (fst (snd s) - fst (fst s), snd (snd s) - snd (fst s))) (adj line).

Definition nonzero_length (d : R * R) : bool := Rneqb (fst d) 0 || Rneqb (snd d) 0.

(** Bearings of the line's segments of non-zero length. *)
Definition line_bearings (line : list Point) : list R :=
  map (fun d => bearing (fst d) (snd d)) (filter nonzero_length (displacements line)).

(** Turns between consecutive surviving segments. *)
Definition line_turns (line : list Point) : list R :=
  map (fun bb => turn_angle (fst bb) (snd bb)) (adj (line_bearings line)).

Definition line_total (line : list Point) : R := Rsum (line_turns line).

(** Rows that produced at least one turn, with their summed turn. *)
Fixpoint line_sums (i : nat) (turns : list (list R)) : list (nat * R) :=
  match turns with
  | [] => []
  | t :: turns' =>
      match t with
      | [] => line_sums (S i) turns'
      | _ :: _ => (i, Rsum t) :: line_sums (S i) turns'
      end
  end.

(** Tagging every element of every group with the position of its group. *)
Fixpoint tagflat {A : Type} (i : nat) (gs : list (list A)) : list (A * nat) :=
  match gs with
  | [] => []
  | g :: gs' => map (fun a => (a, i)) g ++ tagflat (S i) gs'
  end.

(** A line that cannot turn: at most one vertex, or all vertices equal. *)
Definition degenerate (line : list Point) : Prop :=
  forall p q, In p line -> In q line -> p = q.

(** Rows are looked up with this default outside the table. *)
Definition no_row : Z * shapely.Geometry := (0%Z, shapely.mkGeometry []).

(** No line that makes a turn shares its label with another row. *)
Definition turning_unshared (gdf : GeoDataFrame) : Prop :=
  forall p q, (p < length gdf)%nat -> (q < length gdf)%nat ->
    line_turns (shapely.coords (snd (nth p gdf no_row))) <> [] ->
    fst (nth q gdf no_row) = fst (nth p gdf no_row) ->
    q = p.

(** ** The pipeline over the flattened vertex list

    The same computation read off the list of consecutive tagged vertex
    pairs instead of the parallel arrays; the bridge between the source
    and the per-line reading. *)

Definition same_tag {A : Type} (p : (A * nat) * (A * nat)) : bool :=
  (snd (fst p) =? snd (snd p))%nat.

Definition retag {A : Type} (x : (A * A) * nat) : (A * nat) * (A * nat) :=
  ((fst (fst x), snd x), (snd (fst x), snd x)).

Definition seg_disp (s : Point * Point) : R * R :=
  (fst (snd s) - fst (fst s), snd (snd s) - snd (fst s)).

Definition disp (s : (Point * nat) * (Point * nat)) : R * R :=
  (fst (fst (snd s)) - fst (fst (fst s)), snd (fst (snd s)) - snd (fst (fst s))).

Definition seg_bearing (s : (Point * nat) * (Point * nat)) : R :=
  bearing (fst (disp s)) (snd (disp s)).

Definition same_seg_parent
  (q : ((Point * nat) * (Point * nat)) * ((Point * nat) * (Point * nat))) : bool :=
  (snd (fst (fst q)) =? snd (fst (snd q)))%nat.

Definition turns_of_flat (cp : list (Point * nat)) : list (R * nat) :=
  let S := filter same_tag (adj cp) in
  let S' := filter (fun s => nonzero_length (disp s)) S in
  let T := filter same_seg_parent (adj S') in
  map (fun q => (turn_angle (seg_bearing (fst q)) (seg_bearing (snd q)),
                 snd (fst (snd q)))) T.

Definition group_step (s : list (nat * R)) (kv : nat * R) : list (nat * R) :=
  pd.group_add (fst kv) (snd kv) s.

(** Bearing of the segment from [a] to [b]. *)
Definition bearing_of (a b : Point) : R :=
  bearing (fst b - fst a) (snd b - snd a).

(** ** Sample inputs *)

(** Due North, then due East. *)
Definition right_angle_line : list Point := [(0, 0); (0, 10); (10, 10)].

Definition straight_line : list Point := [(0, 0); (0, 10)].

(** One line that turns, one single vertex, one vertex repeated. *)
Definition mixed_collection : GeoDataFrame :=
  [(1%Z, shapely.mkGeometry right_angle_line);
   (2%Z, shapely.mkGeometry [(5, 5)]);
   (3%Z, shapely.mkGeometry [(4, 4); (4, 4); (4, 4)])].

(** Only degenerate lines, under one shared label. *)
Definition single_point_collection : GeoDataFrame :=
  [(7%Z, shapely.mkGeometry [(5, 5)]);
   (7%Z, shapely.mkGeometry [(4, 4); (4, 4)])].

(** ** create_wiggly_line on binary64 numbers

    The same function, line for line, on IEEE 754 doubles.  [libm] holds
    numpy's [sin] and [hypot]; [np.pi] is the double nearest to pi. *)

Module binary64.
Import PrimFloat SpecFloat FloatOps.
Local Open Scope float_scope.

Definition Point64 : Type := (float * float)%type.

Record libm : Type := mk_libm { sin : float -> float; hypot : float -> float -> float }.

Definition pi : float := 0x1.921fb54442d18p+1.

(** The double of a Python int below [2 ^ 53]. *)
Definition of_Z (z : Z) : float := of_uint63 (Uint63.of_Z z).

(** [np.linspace(start, stop, num)], as [np.linspace] above. *)
Definition linspace (start stop : float) (num : Z) : result (list float) :=
  if (num <? 0)%Z then
    Raise (ValueError ("Number of samples, "
                         ++ NilZero.string_of_int (Z.to_int num)
                         ++ ", must be non-negative."))
  else
    let div := (num - 1)%Z in
    let delta := stop - start in
    let y := map (fun k => of_Z (Z.of_nat k)) (seq 0 (Z.to_nat num)) in
    let y :=
      if (0 <? div)%Z then
        let step := delta / of_Z div in
        if step =? 0
        then map (fun v => v / of_Z div * delta) y
        else map (fun v => v * step) y
      else map (fun v => v * delta) y in
    let y := map (fun v => v + start) y in
    Return (if (1 <? num)%Z then set_last y stop else y).

(** [LineString(coordinates)], returning the coordinate rows of the line. *)
Definition LineString (coordinates : list Point64) : result (list Point64) :=
  match coordinates with
  | [_] => Raise (GEOSException
             "IllegalArgumentException: point array must contain 0 or >1 elements")
  | _ => Return coordinates
  end.

Definition create_wiggly_line (m : libm) (p0 p1 : Point64) (n : Z) (amp : float)
  : result (list Point64) :=
  let '(x0, y0) := p0 in
  let '(x1, y1) := p1 in
  let dx := x1 - x0 in
  let dy := y1 - y0 in
  let L := hypot m dx dy in
  if L =? 0 then Raise (ValueError "Points must be different")
  else
    (* Unit direction and perpendicular vectors *)
    let ux := dx / L in
    let uy := dy / L in
    let nx := - uy in
    let ny := ux in
    (* parameter t along the line *)
    t <- linspace 0 1 n ;;
    (* base straight line *)
    let xs := map (fun tk => x0 + tk * dx) t in
    let ys := map (fun tk => y0 + tk * dy) t in
    (* wiggle offset perpendicular to the line *)
    let wiggle := map (fun tk => amp * sin m (2 * pi * tk * 3)) t in
    let xs := zipWith add xs (map (fun w => w * nx) wiggle) in
    let ys := zipWith add ys (map (fun w => w * ny) wiggle) in
    LineString (combine xs ys).

(** The point the function computes for the parameter [tk]. *)
Definition point_at (m : libm) (p0 p1 : Point64) (amp tk : float) : Point64 :=
  let dx := fst p1 - fst p0 in
  let dy := snd p1 - snd p0 in
  let L := hypot m dx dy in
  let w := amp * sin m (2 * pi * tk * 3) in
  (fst p0 + tk * dx + w * (- (dy / L)), snd p0 + tk * dy + w * (dx / L)).

(** The parameters [np.linspace(0, 1, 100)] of a call with the default [n]. *)
Definition default_samples : list float :=
  Eval vm_compute in
    match linspace 0 1 100 with Return ts => ts | Raise _ => [] end.

(** The exact value of a finite double, in units of [2 ^ -1074]. *)
Definition exact (f : float) : Z :=
  match Prim2SF f with
  | S754_finite s m e => (if s then -1 else 1) * Zpos m * 2 ^ (e + 1074)
  | _ => 0
  end%Z.

(** Whether [q] lies exactly on the straight line through [p0] and [p1]:
    the cross product of [q - p0] and [p1 - p0], in exact arithmetic. *)
Definition collinear (p0 p1 q : Point64) : bool :=
  ((exact (fst q) - exact (fst p0)) * (exact (snd p1) - exact (snd p0))
   =? (exact (snd q) - exact (snd p0)) * (exact (fst p1) - exact (fst p0)))%Z.

End binary64.

(** ** Transformations of lines and further sample inputs *)

(** A point moved by the vector [v]. *)
Definition translate (v : R * R) (p : Point) : Point := (fst p + fst v, snd p + snd v).


(** The collection with [f] applied to the coordinate sequence of every
    row, labels unchanged. *)
Definition map_lines (f : list Point -> list Point) (gdf : GeoDataFrame) : GeoDataFrame :=
  map (fun row => (fst row, shapely.mkGeometry (f (shapely.coords (snd row))))) gdf.


(** Two single-segment lines at a right angle, under one shared label. *)
Definition two_segments_one_label : GeoDataFrame :=
  [(7%Z, shapely.mkGeometry [(0, 0); (0, 10)]);
   (7%Z, shapely.mkGeometry [(1, 1); (2, 1)])].

(** * Proofs *)

(** ** Arrays as lists of pairs *)

Lemma adj_nil {A : Type} : adj (@nil A) = [].
Proof. reflexivity. Qed.

Lemma adj_one {A : Type} (a : A) : adj [a] = [].
Proof. reflexivity. Qed.

Lemma adj_cons2 {A : Type} (a b : A) (l : list A) :
  adj (a :: b :: l) = (a, b) :: adj (b :: l).
Proof. reflexivity. Qed.

Section ArrayLemmas.
Context {A B C D : Type}.

Lemma zipWith_map (f : B -> C -> D) (g : A -> B) (h : A -> C) (l : list A) :
  zipWith f (map g l) (map h l) = map (fun x => f (g x) (h x)) l.
Proof.
  induction l as [|a l IH]; simpl; [reflexivity | now rewrite IH].
Qed.

Lemma mask_map (p : A -> bool) (g : A -> B) (l : list A) :
  mask (map p l) (map g l) = map g (filter p l).
Proof.
  induction l as [|a l IH]; simpl; [reflexivity|].
  destruct (p a); simpl; now rewrite IH.
Qed.

Lemma any_map_filter (p : A -> bool) (l : list A) :
  np.any (map p l) = false -> filter p l = [].
Proof.
  unfold np.any.
  induction l as [|a l IH]; simpl; [reflexivity|].
  destruct (p a); simpl; [discriminate | exact IH].
Qed.

Lemma removelast_adj (l : list A) : removelast l = map fst (adj l).
Proof.
  induction l as [|a [|b l] IH]; try reflexivity.
  rewrite adj_cons2. simpl map. rewrite <- IH. reflexivity.
Qed.

Lemma tl_adj (l : list A) : tl l = map snd (adj l).
Proof.
  induction l as [|a [|b l] IH]; try reflexivity.
  rewrite adj_cons2. simpl map. rewrite <- IH. reflexivity.
Qed.

Lemma removelast_map_adj (f : A -> B) (l : list A) :
  removelast (map f l) = map (fun p => f (fst p)) (adj l).
Proof.
  induction l as [|a [|b l] IH]; try reflexivity.
  rewrite adj_cons2. simpl map in *. rewrite <- IH. reflexivity.
Qed.

Lemma tl_map_adj (f : A -> B) (l : list A) :
  tl (map f l) = map (fun p => f (snd p)) (adj l).
Proof.
  induction l as [|a [|b l] IH]; try reflexivity.
  rewrite adj_cons2. simpl map in *. simpl tl in *. rewrite <- IH. reflexivity.
Qed.

Lemma adj_map (f : A -> B) (l : list A) :
  adj (map f l) = map (fun p => (f (fst p), f (snd p))) (adj l).
Proof.
  induction l as [|a [|b l] IH]; try reflexivity.
  rewrite adj_cons2. simpl map in *. rewrite adj_cons2, IH. reflexivity.
Qed.

Lemma adj_short (l : list A) : (length l < 2)%nat -> adj l = [].
Proof.
  destruct l as [|a [|b l]]; simpl; intros H; try reflexivity; lia.
Qed.

Lemma filter_map_comm (p : B -> bool) (f : A -> B) (l : list A) :
  filter p (map f l) = map f (filter (fun a => p (f a)) l).
Proof.
  induction l as [|a l IH]; simpl; [reflexivity|].
  destruct (p (f a)); simpl; now rewrite IH.
Qed.
End ArrayLemmas.

(** ** Tagged flattening *)

Section Tagflat.
Context {A B : Type}.

Lemma tagflat_tag_ge (i : nat) (gs : list (list A)) (x : A * nat) :
  In x (tagflat i gs) -> (i <= snd x)%nat.
Proof.
  revert i. induction gs as [|g gs IH]; simpl; intros i H; [contradiction|].
  apply in_app_or in H. destruct H as [H|H].
  - apply in_map_iff in H. destruct H as [a [<- _]]. simpl. lia.
  - apply IH in H. lia.
Qed.

Lemma filter_same_adj_group (i : nat) (g : list A) (rest : list (A * nat)) :
  (forall x, In x rest -> (i < snd x)%nat) ->
  filter same_tag (adj (map (fun a => (a, i)) g ++ rest))
  = map retag (map (fun s => (s, i)) (adj g)) ++ filter same_tag (adj rest).
Proof.
  intros Hrest.
  induction g as [|a [|b g] IH].
  - reflexivity.
  - simpl map. simpl app. destruct rest as [|[c j] rest'].
    + reflexivity.
    + rewrite adj_cons2. simpl filter. unfold same_tag at 1. simpl.
      assert (i < j)%nat as Hij by (apply (Hrest (c, j)); now left).
      destruct (Nat.eqb_spec i j); [lia | reflexivity].
  - change (map (fun a0 => (a0, i)) (a :: b :: g) ++ rest)
      with ((a, i) :: (b, i) :: (map (fun a0 => (a0, i)) g ++ rest)).
    rewrite !adj_cons2. simpl filter. unfold same_tag at 1. simpl fst. simpl snd.
    rewrite Nat.eqb_refl. simpl map.
    change ((b, i) :: map (fun a0 => (a0, i)) g ++ rest)
      with (map (fun a0 => (a0, i)) (b :: g) ++ rest).
    rewrite IH. reflexivity.
Qed.

Lemma filter_same_adj_tagflat (i : nat) (gs : list (list A)) :
  filter same_tag (adj (tagflat i gs)) = map retag (tagflat i (map adj gs)).
Proof.
  revert i. induction gs as [|g gs IH]; intros i; [reflexivity|].
  simpl tagflat. rewrite filter_same_adj_group.
  - rewrite IH, map_app. reflexivity.
  - intros x Hx. apply tagflat_tag_ge in Hx. lia.
Qed.

Lemma tagflat_filter (p : A -> bool) (i : nat) (gs : list (list A)) :
  filter (fun x => p (fst x)) (tagflat i gs) = tagflat i (map (filter p) gs).
Proof.
  revert i. induction gs as [|g gs IH]; intros i; [reflexivity|].
  simpl. rewrite filter_app, IH. f_equal.
  rewrite filter_map_comm. reflexivity.
Qed.

Lemma tagflat_map (f : A -> B) (i : nat) (gs : list (list A)) :
  tagflat i (map (map f) gs) = map (fun x => (f (fst x), snd x)) (tagflat i gs).
Proof.
  revert i. induction gs as [|g gs IH]; intros i; [reflexivity|].
  simpl. rewrite map_app, IH, !map_map. reflexivity.
Qed.

Lemma tagflat_all_nil (i : nat) (gs : list (list A)) :
  (forall g, In g gs -> g = []) -> tagflat i gs = [].
Proof.
  revert i. induction gs as [|g gs IH]; intros i H; [reflexivity|].
  simpl. rewrite (H g) by now left. simpl. apply IH.
  intros g' Hg'. apply H. now right.
Qed.
End Tagflat.

Lemma get_coordinates_from_tagflat (i : nat) (geoms : list shapely.Geometry) :
  shapely.get_coordinates_from i geoms = tagflat i (map shapely.coords geoms).
Proof.
  revert i. induction geoms as [|g gs IH]; intros i; simpl; [reflexivity|].
  now rewrite IH.
Qed.

(** ** From the parallel arrays to the flattened pairs *)

Lemma loc_setitem_nil (out : pd.Series) :
  pd.loc_setitem out [] [] = Return out.
Proof. destruct out. reflexivity. Qed.

Lemma pipeline_flat (gdf : GeoDataFrame) :
  total_bearing_change_planar gdf =
  let index := gdf_index gdf in
  let tt := turns_of_flat (shapely.get_coordinates_from 0 (gdf_geometry gdf)) in
  let s := pd.groupby_sum (map fst tt) (map snd tt) in
  pd.loc_setitem (pd.Series_const 0 index)
    (map (fun i => nth i index 0%Z) (map fst s)) (map snd s).
Proof.
  unfold total_bearing_change_planar, shapely.get_coordinates, turns_of_flat.
  set (cp := shapely.get_coordinates_from 0 (gdf_geometry gdf)).
  cbv zeta.
  rewrite !removelast_map_adj, !tl_map_adj.
  rewrite (zipWith_map Nat.eqb).
  change (fun x : (Point * nat) * (Point * nat) => (snd (fst x) =? snd (snd x))%nat)
    with (@same_tag Point).
  rewrite !mask_map.
  set (S := filter same_tag (adj cp)).
  rewrite !map_map.
  rewrite !(zipWith_map Rminus).
  rewrite !map_map.
  rewrite (zipWith_map orb).
  change (fun x : (Point * nat) * (Point * nat) =>
            Rneqb (fst (fst (snd x)) - fst (fst (fst x))) 0
            || Rneqb (snd (fst (snd x)) - snd (fst (fst x))) 0)
    with (fun s : (Point * nat) * (Point * nat) => nonzero_length (disp s)).
  rewrite !mask_map.
  set (S' := filter (fun s => nonzero_length (disp s)) S).
  rewrite (zipWith_map bearing).
  change (fun x : (Point * nat) * (Point * nat) =>
            bearing (fst (fst (snd x)) - fst (fst (fst x)))
                    (snd (fst (snd x)) - snd (fst (fst x))))
    with seg_bearing.
  rewrite !removelast_map_adj, !tl_map_adj.
  rewrite (zipWith_map Nat.eqb).
  change (fun x : ((Point * nat) * (Point * nat)) * ((Point * nat) * (Point * nat)) =>
            (snd (fst (fst x)) =? snd (fst (snd x)))%nat)
    with same_seg_parent.
  rewrite !mask_map.
  set (T := filter same_seg_parent (adj S')).
  rewrite (zipWith_map (fun x1 x0 => turn_angle x0 x1)).
  rewrite ?map_map. cbn [fst snd].
  destruct (Nat.ltb_spec (length (map fst cp)) 2) as [Hlen|Hlen].
  { rewrite length_map in Hlen.
    assert (T = []) as -> by (subst T S' S; now rewrite (adj_short cp Hlen)).
    reflexivity. }
  destruct (np.any (map same_tag (adj cp))) eqn:Hany1; cbn [negb].
  2:{ assert (T = []) as -> by (subst T S' S; now rewrite (any_map_filter _ _ Hany1)).
      reflexivity. }
  destruct (np.any (map (fun s => nonzero_length (disp s)) S)) eqn:Hany2; cbn [negb].
  2:{ assert (T = []) as -> by (subst T S'; now rewrite (any_map_filter _ _ Hany2)).
      reflexivity. }
  destruct (np.any (map same_seg_parent (adj S'))) eqn:Hany3; cbn [negb].
  2:{ assert (T = []) as -> by (subst T; now rewrite (any_map_filter _ _ Hany3)).
      reflexivity. }
  reflexivity.
Qed.

Lemma line_turns_unfold (line : list Point) :
  line_turns line =
  map (fun ss => turn_angle (bearing (fst (seg_disp (fst ss))) (snd (seg_disp (fst ss))))
                            (bearing (fst (seg_disp (snd ss))) (snd (seg_disp (snd ss)))))
      (adj (filter (fun s => nonzero_length (seg_disp s)) (adj line))).
Proof.
  unfold line_turns, line_bearings, displacements.
  change (fun s : Point * Point => (fst (snd s) - fst (fst s), snd (snd s) - snd (fst s)))
    with seg_disp.
  rewrite filter_map_comm, map_map, adj_map, map_map. reflexivity.
Qed.

Lemma turns_of_flat_tagflat (lines : list (list Point)) :
  turns_of_flat (tagflat 0 lines) = tagflat 0 (map line_turns lines).
Proof.
  unfold turns_of_flat. cbv zeta.
  rewrite filter_same_adj_tagflat.
  rewrite filter_map_comm.
  rewrite (filter_ext _ (fun x => (fun s => nonzero_length (seg_disp s)) (fst x)))
    by (intros [[a b] k]; reflexivity).
  rewrite (tagflat_filter (fun s => nonzero_length (seg_disp s))).
  rewrite adj_map, filter_map_comm.
  rewrite (filter_ext _ same_tag) by (intros [[s1 k1] [s2 k2]]; reflexivity).
  rewrite filter_same_adj_tagflat.
  rewrite (map_ext line_turns _ line_turns_unfold).
  rewrite <- (map_map (fun line => adj (filter (fun s => nonzero_length (seg_disp s)) (adj line)))
                (map _)).
  rewrite tagflat_map.
  rewrite <- (map_map adj (fun l => adj (filter _ l))).
  rewrite <- (map_map (filter _) adj).
  rewrite !map_map.
  apply map_ext. intros [[[a b] [c d]] k]. reflexivity.
Qed.

(** ** Grouped sums over a tagged flattening *)

Lemma group_add_new (k : nat) (v : R) (acc : list (nat * R)) :
  (forall x, In x acc -> (fst x < k)%nat) ->
  pd.group_add k v acc = acc ++ [(k, v)].
Proof.
  induction acc as [|[k' v'] acc IH]; intros H; simpl; [reflexivity|].
  assert (k' < k)%nat as Hk by (apply (H (k', v')); now left).
  destruct (Nat.ltb_spec k k'); [lia|].
  destruct (Nat.eqb_spec k k'); [lia|].
  rewrite IH; [reflexivity|]. intros x Hx. apply H. now right.
Qed.

Lemma group_add_last (k : nat) (v w : R) (acc : list (nat * R)) :
  (forall x, In x acc -> (fst x < k)%nat) ->
  pd.group_add k v (acc ++ [(k, w)]) = acc ++ [(k, w + v)].
Proof.
  induction acc as [|[k' v'] acc IH]; intros H; simpl.
  - rewrite Nat.ltb_irrefl, Nat.eqb_refl. reflexivity.
  - assert (k' < k)%nat as Hk by (apply (H (k', v')); now left).
    destruct (Nat.ltb_spec k k'); [lia|].
    destruct (Nat.eqb_spec k k'); [lia|].
    rewrite IH; [reflexivity|]. intros x Hx. apply H. now right.
Qed.

Lemma fold_group_tail (k : nat) (w : R) (vs : list R) (acc : list (nat * R)) :
  (forall x, In x acc -> (fst x < k)%nat) ->
  fold_left group_step (map (fun v => (k, v)) vs) (acc ++ [(k, w)])
  = acc ++ [(k, w + Rsum vs)].
Proof.
  intros H. revert w.
  induction vs as [|v vs IH]; intros w; simpl.
  - now rewrite Rplus_0_r.
  - unfold group_step at 2. simpl fst. simpl snd.
    rewrite group_add_last by exact H. rewrite IH.
    replace (w + v + Rsum vs) with (w + (v + Rsum vs)) by ring. reflexivity.
Qed.

Lemma fold_group_tagflat (i : nat) (Ls : list (list R)) (acc : list (nat * R)) :
  (forall x, In x acc -> (fst x < i)%nat) ->
  fold_left group_step (map (fun x => (snd x, fst x)) (tagflat i Ls)) acc
  = acc ++ line_sums i Ls.
Proof.
  revert i acc. induction Ls as [|L Ls IH]; intros i acc H.
  - simpl. now rewrite app_nil_r.
  - simpl tagflat. rewrite map_app, fold_left_app, map_map. cbn [fst snd].
    destruct L as [|v vs].
    + simpl. apply IH. intros x Hx. apply H in Hx. lia.
    + simpl map. simpl fold_left.
      change (group_step acc (i, v)) with (pd.group_add i v acc).
      rewrite group_add_new by exact H.
      rewrite fold_group_tail by exact H.
      rewrite IH.
      * rewrite <- app_assoc. reflexivity.
      * intros x Hx. apply in_app_or in Hx. destruct Hx as [Hx|[<-|[]]].
        -- apply H in Hx. lia.
        -- simpl. lia.
Qed.

Lemma combine_map_fst_snd {A B C : Type} (f : C -> A) (g : C -> B) (l : list C) :
  combine (map f l) (map g l) = map (fun x => (f x, g x)) l.
Proof. induction l as [|c l IH]; simpl; [reflexivity | now rewrite IH]. Qed.

Lemma groupby_sum_tagflat (Ls : list (list R)) :
  pd.groupby_sum (map fst (tagflat 0 Ls)) (map snd (tagflat 0 Ls)) = line_sums 0 Ls.
Proof.
  unfold pd.groupby_sum. rewrite combine_map_fst_snd.
  apply (fold_group_tagflat 0 Ls []). intros x [].
Qed.

(** ** Label-based assignment on a duplicate-free index *)

Lemma positions_from_absent (i : nat) (index : list Z) (l : Z) :
  ~ In l index -> pd.positions_from i index l = [].
Proof.
  revert i. induction index as [|x index IH]; intros i H; simpl; [reflexivity|].
  destruct (Z.eqb_spec x l) as [->|_].
  - exfalso. apply H. now left.
  - simpl. apply IH. intros Hin. apply H. now right.
Qed.

Lemma positions_from_nth (i p : nat) (index : list Z) :
  (p < length index)%nat ->
  (forall q, (q < length index)%nat -> nth q index 0%Z = nth p index 0%Z -> q = p) ->
  pd.positions_from i index (nth p index 0%Z) = [(i + p)%nat].
Proof.
  revert i p.
  induction index as [|x index IH]; intros i p Hp Hu; simpl in Hp; [lia|].
  destruct p as [|p]; simpl.
  - rewrite Z.eqb_refl, positions_from_absent.
    + now rewrite Nat.add_0_r.
    + intros Hin. destruct (In_nth _ _ 0%Z Hin) as [q [Hq Hx]].
      specialize (Hu (S q)). simpl in Hu. specialize (Hu ltac:(lia) Hx). discriminate.
  - destruct (Z.eqb_spec x (nth p index 0%Z)) as [E|_].
    + specialize (Hu 0%nat). simpl in Hu. specialize (Hu ltac:(lia) E). discriminate.
    + simpl. rewrite IH.
      * f_equal. lia.
      * lia.
      * intros q Hq E. specialize (Hu (S q)). simpl in Hu.
        specialize (Hu ltac:(lia) E). lia.
Qed.

Lemma get_indexer_positions (index : list Z) (ps : list nat) :
  (forall p, In p ps -> (p < length index)%nat) ->
  (forall p q, In p ps -> (q < length index)%nat ->
               nth q index 0%Z = nth p index 0%Z -> q = p) ->
  pd.get_indexer index (map (fun i => nth i index 0%Z) ps) = ps.
Proof.
  unfold pd.get_indexer.
  induction ps as [|p ps IH]; intros H Hu; simpl; [reflexivity|].
  rewrite positions_from_nth.
  - simpl. rewrite IH; [reflexivity| |].
    + intros q Hq. apply H. now right.
    + intros q r Hq. apply Hu. now right.
  - apply H. now left.
  - intros q. apply Hu. now left.
Qed.

Lemma line_sums_bound (i : nat) (Ls : list (list R)) (x : nat * R) :
  In x (line_sums i Ls) -> (i <= fst x < i + length Ls)%nat.
Proof.
  revert i. induction Ls as [|L Ls IH]; intros i H; simpl in *; [contradiction|].
  destruct L as [|v vs].
  - apply IH in H. lia.
  - destruct H as [<-|H]; [simpl; lia|]. apply IH in H. lia.
Qed.

Lemma set_nth_app {A : Type} (done : list A) (a v : A) (rest : list A) :
  set_nth (length done) v (done ++ a :: rest) = done ++ v :: rest.
Proof. induction done as [|d done IH]; simpl; [reflexivity | now rewrite IH]. Qed.

Lemma fold_set_line_sums (Ls : list (list R)) (done : list R) :
  fold_left (fun vs pv => set_nth (fst pv) (snd pv) vs)
    (line_sums (length done) Ls) (done ++ map (fun _ => 0) Ls)
  = done ++ map Rsum Ls.
Proof.
  revert done. induction Ls as [|L Ls IH]; intros done; [reflexivity|].
  assert (forall v, done ++ v :: map (fun _ => 0) Ls = (done ++ [v]) ++ map (fun _ => 0) Ls)
    as Hsnoc by (intros v; now rewrite <- app_assoc).
  assert (S (length done) = length (done ++ [0])) as Hlen0
    by (rewrite length_app; simpl; lia).
  destruct L as [|v vs]; simpl line_sums; simpl map.
  - rewrite Hsnoc, Hlen0, IH, <- app_assoc. reflexivity.
  - simpl fold_left. rewrite set_nth_app.
    assert (S (length done) = length (done ++ [v + Rsum vs])) as Hlen
      by (rewrite length_app; simpl; lia).
    rewrite Hsnoc, Hlen, IH, <- app_assoc. reflexivity.
Qed.

Lemma line_sums_turning (i : nat) (Ls : list (list R)) (x : nat * R) :
  In x (line_sums i Ls) -> nth (fst x - i) Ls [] <> [].
Proof.
  revert i. induction Ls as [|L Ls IH]; intros i H; simpl in H; [contradiction|].
  destruct L as [|v vs].
  - pose proof (line_sums_bound _ _ _ H) as Hb. apply IH in H.
    replace (fst x - i)%nat with (S (fst x - S i)) by lia. exact H.
  - destruct H as [<-|H].
    + simpl. rewrite Nat.sub_diag. discriminate.
    + pose proof (line_sums_bound _ _ _ H) as Hb. apply IH in H.
      replace (fst x - i)%nat with (S (fst x - S i)) by lia. exact H.
Qed.

Lemma loc_setitem_line_sums (index : list Z) (Ls : list (list R)) :
  length Ls = length index ->
  (forall p q, (p < length index)%nat -> (q < length index)%nat ->
               nth p Ls [] <> [] -> nth q index 0%Z = nth p index 0%Z -> q = p) ->
  pd.loc_setitem (pd.Series_const 0 index)
    (map (fun i => nth i index 0%Z) (map fst (line_sums 0 Ls)))
    (map snd (line_sums 0 Ls))
  = Return (pd.mkSeries index (map Rsum Ls)).
Proof.
  intros Hlen Hu. unfold pd.loc_setitem. cbn [pd.index pd.values pd.Series_const].
  assert (forall p, In p (map fst (line_sums 0 Ls)) ->
                    (p < length index)%nat /\ nth p Ls [] <> []) as Hin.
  { intros p Hp. apply in_map_iff in Hp. destruct Hp as [x [<- Hx]].
    pose proof (line_sums_bound _ _ _ Hx). pose proof (line_sums_turning _ _ _ Hx) as Ht.
    rewrite Nat.sub_0_r in Ht. split; [lia | exact Ht]. }
  rewrite get_indexer_positions.
  2:{ intros p Hp. now apply Hin. }
  2:{ intros p q Hp Hq. apply Hu; [now apply Hin | exact Hq | now apply Hin]. }
  rewrite !length_map, Nat.eqb_refl.
  rewrite combine_map_fst_snd.
  rewrite (map_ext _ (fun x => x)) by (intros []; reflexivity).
  rewrite map_id.
  assert (map (fun _ : Z => 0) index = map (fun _ : list R => 0) Ls) as ->.
  { clear Hu Hin. revert index Hlen. induction Ls as [|L Ls IH]; intros [|z index] H;
      simpl in *; try discriminate; [reflexivity|]. f_equal. apply IH. lia. }
  f_equal. f_equal.
  apply (fold_set_line_sums Ls []).
Qed.

Lemma total_bearing_change_planar_per_line (gdf : GeoDataFrame) :
  total_bearing_change_planar gdf =
  let index := gdf_index gdf in
  let s := line_sums 0 (map (fun g => line_turns (shapely.coords g)) (gdf_geometry gdf)) in
  pd.loc_setitem (pd.Series_const 0 index)
    (map (fun i => nth i index 0%Z) (map fst s)) (map snd s).
Proof.
  rewrite pipeline_flat. cbv zeta.
  rewrite get_coordinates_from_tagflat, turns_of_flat_tagflat, groupby_sum_tagflat.
  rewrite !map_map. reflexivity.
Qed.

Lemma total_bearing_change_planar_unshared (gdf : GeoDataFrame) :
  turning_unshared gdf ->
  total_bearing_change_planar gdf =
  Return (pd.mkSeries (gdf_index gdf)
            (map (fun g => line_total (shapely.coords g)) (gdf_geometry gdf))).
Proof.
  intros Hu. rewrite total_bearing_change_planar_per_line. cbv zeta.
  rewrite loc_setitem_line_sums.
  - rewrite map_map. reflexivity.
  - unfold gdf_index, gdf_geometry. now rewrite !length_map.
  - unfold gdf_index, gdf_geometry. rewrite !length_map. intros p q Hp Hq Ht E.
    apply (Hu p q Hp Hq).
    + intros Hnil. apply Ht.
      change (@nil R) with ((fun g => line_turns (shapely.coords g)) (shapely.mkGeometry [])).
      rewrite map_nth.
      change (shapely.mkGeometry []) with (snd no_row). rewrite map_nth. exact Hnil.
    + change 0%Z with (fst no_row) in E. rewrite !map_nth in E. exact E.
Qed.

Lemma NoDup_turning_unshared (gdf : GeoDataFrame) :
  NoDup (gdf_index gdf) -> turning_unshared gdf.
Proof.
  intros Hnd p q Hp Hq _ E.
  apply (proj1 (NoDup_nth (gdf_index gdf) 0%Z) Hnd q p).
  - unfold gdf_index. now rewrite length_map.
  - unfold gdf_index. now rewrite length_map.
  - unfold gdf_index. change 0%Z with (fst no_row). now rewrite !map_nth.
Qed.

Lemma total_bearing_change_planar_unique (gdf : GeoDataFrame) :
  NoDup (gdf_index gdf) ->
  total_bearing_change_planar gdf =
  Return (pd.mkSeries (gdf_index gdf)
            (map (fun g => line_total (shapely.coords g)) (gdf_geometry gdf))).
Proof.
  intros Hnd. apply total_bearing_change_planar_unshared.
  now apply NoDup_turning_unshared.
Qed.

(** ** A shared label on a turning line *)

Lemma positions_from_In (i q : nat) (index : list Z) :
  (q < length index)%nat ->
  In (i + q)%nat (pd.positions_from i index (nth q index 0%Z)).
Proof.
  revert i q. induction index as [|x index IH]; intros i q Hq; simpl in Hq; [lia|].
  destruct q as [|q]; simpl.
  - rewrite Z.eqb_refl, Nat.add_0_r. now left.
  - apply in_or_app. right. replace (i + S q)%nat with (S i + q)%nat by lia.
    apply IH. lia.
Qed.

Lemma positions_from_bound (i : nat) (index : list Z) (l : Z) (x : nat) :
  In x (pd.positions_from i index l) -> (i <= x)%nat.
Proof.
  revert i. induction index as [|y index IH]; intros i H; simpl in H; [contradiction|].
  apply in_app_or in H. destruct H as [H|H].
  - destruct (y =? l)%Z; [destruct H as [<-|[]]; lia | contradiction].
  - apply IH in H. lia.
Qed.

Lemma positions_from_NoDup (i : nat) (index : list Z) (l : Z) :
  NoDup (pd.positions_from i index l).
Proof.
  revert i. induction index as [|y index IH]; intros i; simpl; [constructor|].
  destruct (y =? l)%Z; simpl; [|apply IH].
  constructor; [|apply IH].
  intros H. apply positions_from_bound in H. lia.
Qed.

Lemma get_indexer_length (index : list Z) (ps : list nat) :
  (forall p, In p ps -> (p < length index)%nat) ->
  (length ps <= length (pd.get_indexer index (map (fun i => nth i index 0%Z) ps)))%nat.
Proof.
  unfold pd.get_indexer.
  induction ps as [|p ps IH]; intros H; simpl; [lia|].
  rewrite length_app.
  assert (1 <= length (pd.positions_from 0 index (nth p index 0%Z)))%nat.
  { pose proof (positions_from_In 0 p index (H p (or_introl eq_refl))) as Hin.
    destruct (pd.positions_from 0 index (nth p index 0%Z)); [contradiction | simpl; lia]. }
  assert (length ps <=
          length (flat_map (pd.positions_from 0 index) (map (fun i => nth i index 0%Z) ps)))%nat
    by (apply IH; intros r Hr; apply H; now right).
  lia.
Qed.

Lemma get_indexer_length_shared (index : list Z) (ps : list nat) (p q : nat) :
  (forall r, In r ps -> (r < length index)%nat) ->
  In p ps -> (q < length index)%nat -> q <> p ->
  nth q index 0%Z = nth p index 0%Z ->
  (length ps < length (pd.get_indexer index (map (fun i => nth i index 0%Z) ps)))%nat.
Proof.
  intros H Hp Hq Hne E. apply in_split in Hp. destruct Hp as [ps1 [ps2 ->]].
  assert (forall r, In r ps1 -> (r < length index)%nat) as H1
    by (intros r Hr; apply H, in_or_app; now left).
  assert (forall r, In r ps2 -> (r < length index)%nat) as H2
    by (intros r Hr; apply H, in_or_app; right; now right).
  assert (p < length index)%nat as Hpl by (apply H, in_or_app; right; now left).
  pose proof (get_indexer_length index ps1 H1) as L1.
  pose proof (get_indexer_length index ps2 H2) as L2.
  unfold pd.get_indexer in *.
  rewrite map_app, flat_map_app. simpl map. simpl flat_map.
  rewrite !length_app. simpl length.
  assert (2 <= length (pd.positions_from 0 index (nth p index 0%Z)))%nat.
  { apply (NoDup_incl_length (l := [q; p])).
    - constructor; [intros [->|[]]; now apply Hne | constructor; [intros [] | constructor]].
    - intros x [<-|[<-|[]]].
      + rewrite <- E. apply (positions_from_In 0 q index Hq).
      + apply (positions_from_In 0 p index Hpl). }
  lia.
Qed.

Lemma line_sums_In (i p : nat) (Ls : list (list R)) :
  nth p Ls [] <> [] -> In (i + p)%nat (map fst (line_sums i Ls)).
Proof.
  revert i p. induction Ls as [|L Ls IH]; intros i p H.
  - destruct p; simpl in H; congruence.
  - destruct p as [|p]; simpl in H.
    + destruct L as [|v vs]; [congruence|]. simpl. left. lia.
    + replace (i + S p)%nat with (S i + p)%nat by lia.
      destruct L as [|v vs]; cbn [line_sums map]; [|right]; now apply IH.
Qed.

Lemma shared_turning_label_raises (gdf : GeoDataFrame) (p q : nat) :
  (p < length gdf)%nat -> (q < length gdf)%nat -> q <> p ->
  line_turns (shapely.coords (snd (nth p gdf no_row))) <> [] ->
  fst (nth q gdf no_row) = fst (nth p gdf no_row) ->
  total_bearing_change_planar gdf =
  Raise (ValueError
    "cannot set using a list-like indexer with a different length than the value").
Proof.
  intros Hp Hq Hne Ht E.
  rewrite total_bearing_change_planar_per_line. cbv zeta.
  set (Ls := map (fun g => line_turns (shapely.coords g)) (gdf_geometry gdf)).
  unfold pd.loc_setitem. cbn [pd.index pd.Series_const].
  assert (length (gdf_index gdf) = length gdf) as Hli
    by (unfold gdf_index; now rewrite length_map).
  assert (length Ls = length gdf) as HlL
    by (unfold Ls, gdf_geometry; now rewrite !length_map).
  assert (length (map fst (line_sums 0 Ls))
          < length (pd.get_indexer (gdf_index gdf)
                      (map (fun i => nth i (gdf_index gdf) 0%Z) (map fst (line_sums 0 Ls)))))%nat
    as Hlt.
  { apply (get_indexer_length_shared _ _ p q).
    - intros r Hr. apply in_map_iff in Hr. destruct Hr as [x [<- Hx]].
      apply line_sums_bound in Hx. lia.
    - apply (line_sums_In 0 p). unfold Ls, gdf_geometry. rewrite map_map.
      change (@nil R) with ((fun x : Z * shapely.Geometry =>
                               line_turns (shapely.coords (snd x))) no_row).
      rewrite map_nth. exact Ht.
    - lia.
    - exact Hne.
    - unfold gdf_index. change 0%Z with (fst no_row). now rewrite !map_nth. }
  rewrite !length_map in *.
  destruct (Nat.eqb_spec
              (length (pd.get_indexer (gdf_index gdf)
                         (map (fun i => nth i (gdf_index gdf) 0%Z)
                            (map fst (line_sums 0 Ls)))))
              (length (line_sums 0 Ls))) as [Heq|_]; [lia | reflexivity].
Qed.

(** ** Remainder, bearings and turns *)

Ltac split_Rabs :=
  unfold Rabs in *; repeat (destruct (Rcase_abs _)); try lra.

Lemma remainder_eq (a m : R) (k : Z) :
  0 < m -> 0 <= a - m * IZR k < m -> np.remainder a m = a - m * IZR k.
Proof.
  intros Hm [Hlo Hhi]. unfold np.remainder.
  rewrite (Zfloor_eq k); [reflexivity|].
  split.
  - apply Rmult_le_reg_r with m; [exact Hm|].
    unfold Rdiv. rewrite Rmult_assoc, Rinv_l by lra. lra.
  - apply Rmult_lt_reg_r with m; [exact Hm|].
    unfold Rdiv. rewrite Rmult_assoc, Rinv_l by lra. lra.
Qed.

Lemma remainder_bound (a m : R) : 0 < m -> 0 <= np.remainder a m < m.
Proof.
  intros Hm. unfold np.remainder.
  destruct (Zfloor_bound (a / m)) as [Hlo Hhi].
  assert (a = a / m * m) as Ha by (field; lra).
  split.
  - apply (Rmult_le_compat_r m) in Hlo; lra.
  - apply (Rmult_lt_compat_r m) in Hhi; lra.
Qed.

Lemma bearing_range (dx dy : R) : 0 <= bearing dx dy < 360.
Proof. unfold bearing. apply remainder_bound. lra. Qed.

Lemma turn_angle_range (b0 b1 : R) : 0 <= turn_angle b0 b1 <= 180.
Proof.
  unfold turn_angle, np.abs.
  destruct (remainder_bound (b1 - b0 + 180) 360 ltac:(lra)) as [Hlo Hhi].
  split; [apply Rabs_pos|]. apply Rabs_le. lra.
Qed.

Lemma turn_angle_shift (b0 b1 : R) :
  exists k : Z, turn_angle b0 b1 = Rabs (b1 - b0 + 360 * IZR k).
Proof.
  exists (- Zfloor ((b1 - b0 + 180) / 360))%Z.
  unfold turn_angle, np.abs, np.remainder. rewrite opp_IZR. f_equal. ring.
Qed.

Lemma turn_angle_least (b0 b1 : R) (k : Z) :
  turn_angle b0 b1 <= Rabs (b1 - b0 + 360 * IZR k).
Proof.
  destruct (turn_angle_shift b0 b1) as [j Hj].
  pose proof (turn_angle_range b0 b1) as [_ Hhi].
  destruct (Z.eq_dec k j) as [->|Hne]; [rewrite Hj; lra|].
  rewrite Hj in *. clear Hj.
  assert (k <= j - 1 \/ j + 1 <= k)%Z as [Hlt|Hgt] by lia.
  - apply IZR_le in Hlt. rewrite minus_IZR in Hlt. split_Rabs.
  - apply IZR_le in Hgt. rewrite plus_IZR in Hgt. split_Rabs.
Qed.

Lemma turn_angle_min (b0 b1 : R) :
  0 <= b0 < 360 -> 0 <= b1 < 360 ->
  turn_angle b0 b1 = Rmin (Rabs (b1 - b0)) (360 - Rabs (b1 - b0)).
Proof.
  intros H0 H1. unfold turn_angle, np.abs.
  destruct (Rle_lt_dec (-180) (b1 - b0)) as [Hd|Hd].
  - destruct (Rlt_le_dec (b1 - b0) 180) as [Hd'|Hd'].
    + rewrite (remainder_eq _ 360 0) by lra.
      replace (b1 - b0 + 180 - 360 * 0 - 180) with (b1 - b0) by ring.
      rewrite Rmin_left; [reflexivity|]. split_Rabs.
    + rewrite (remainder_eq _ 360 1) by lra.
      rewrite (Rabs_right (b1 - b0)) by lra.
      rewrite Rmin_right by lra.
      rewrite Rabs_left1 by lra. lra.
  - rewrite (remainder_eq _ 360 (-1)) by lra.
    rewrite (Rabs_left (b1 - b0)) by lra.
    rewrite Rmin_right by lra.
    rewrite Rabs_right by lra. lra.
Qed.

Lemma turn_angle_350_10 : turn_angle 350 10 = 20.
Proof.
  unfold turn_angle, np.abs.
  rewrite (remainder_eq _ 360 (-1)) by lra.
  rewrite Rabs_right by lra. lra.
Qed.

Lemma Reqb_true (a b : R) : a = b -> Reqb a b = true.
Proof. intros H. unfold Reqb. destruct (Req_dec_T a b); [reflexivity | contradiction]. Qed.

Lemma Reqb_false (a b : R) : a <> b -> Reqb a b = false.
Proof. intros H. unfold Reqb. destruct (Req_dec_T a b); [contradiction | reflexivity]. Qed.

Lemma nonzero_length_true (dx dy : R) :
  dx <> 0 \/ dy <> 0 -> nonzero_length (dx, dy) = true.
Proof.
  unfold nonzero_length, Rneqb. simpl. intros [H|H].
  - now rewrite (Reqb_false _ _ H).
  - rewrite (Reqb_false _ _ H). apply orb_true_r.
Qed.

Lemma nonzero_length_false (dx dy : R) :
  dx = 0 -> dy = 0 -> nonzero_length (dx, dy) = false.
Proof.
  intros -> ->. unfold nonzero_length, Rneqb. simpl.
  now rewrite Reqb_true.
Qed.

Lemma bearing_north (dy : R) : 0 < dy -> bearing 0 dy = 0.
Proof.
  intros H. unfold bearing, np.arctan2, np.degrees.
  destruct (Rlt_dec 0 dy); [|contradiction].
  unfold Rdiv at 1. rewrite Rmult_0_l, atan_0, Rmult_0_l.
  rewrite (remainder_eq _ 360 1) by lra. lra.
Qed.

Lemma bearing_east (dx : R) : 0 < dx -> bearing dx 0 = 90.
Proof.
  intros H. unfold bearing, np.arctan2, np.degrees.
  destruct (Rlt_dec 0 0); [lra|].
  destruct (Rlt_dec 0 dx); [|contradiction].
  assert (PI / 2 * (180 / PI) = 90) as -> by (field; apply PI_neq0).
  rewrite (remainder_eq _ 360 1) by lra. lra.
Qed.

Lemma turn_angle_0_90 : turn_angle 0 90 = 90.
Proof.
  unfold turn_angle, np.abs.
  rewrite (remainder_eq _ 360 0) by lra.
  rewrite Rabs_right by lra. lra.
Qed.

Lemma line_turns_right_angle :
  line_turns [(0, 0); (0, 10); (10, 10)] = [90].
Proof.
  unfold line_turns, line_bearings, displacements.
  rewrite !adj_cons2, adj_one. cbn [map fst snd filter].
  rewrite !nonzero_length_true by (left + right; lra).
  cbn [map adj removelast tl combine fst snd].
  replace (0 - 0) with 0 by ring. replace (10 - 10) with 0 by ring.
  rewrite bearing_north, bearing_east by lra.
  now rewrite turn_angle_0_90.
Qed.

(** ** The generator *)

Lemma hypot_eq_0 (dx dy : R) : np.hypot dx dy = 0 <-> dx = 0 /\ dy = 0.
Proof.
  unfold np.hypot. split.
  - intros H. apply sqrt_eq_0 in H; nra.
  - intros [-> ->]. rewrite Rmult_0_l, Rplus_0_l. apply sqrt_0.
Qed.

Lemma hypot_points (p0 p1 : Point) :
  np.hypot (fst p1 - fst p0) (snd p1 - snd p0) = 0 <-> p0 = p1.
Proof.
  rewrite hypot_eq_0. destruct p0 as [x0 y0], p1 as [x1 y1]. simpl. split.
  - intros [Hx Hy]. f_equal; lra.
  - intros H. injection H as -> ->. lra.
Qed.

Lemma create_wiggly_line_same (p : Point) (n : Z) (amp : R) :
  create_wiggly_line p p n amp = Raise (ValueError "Points must be different").
Proof.
  destruct p as [x y]. unfold create_wiggly_line.
  rewrite Reqb_true; [reflexivity|].
  apply (hypot_points (x, y) (x, y)). reflexivity.
Qed.

Lemma create_wiggly_line_linspace (p0 p1 : Point) (n : Z) (amp : R) :
  p0 <> p1 ->
  create_wiggly_line p0 p1 n amp =
  (ts <- np.linspace 0 1 n ;; shapely.LineString (map (wiggly_point p0 p1 amp) ts)).
Proof.
  intros Hne. destruct p0 as [x0 y0], p1 as [x1 y1]. unfold create_wiggly_line.
  rewrite Reqb_false.
  2:{ intros H. apply Hne. now apply (hypot_points (x0, y0) (x1, y1)). }
  destruct (np.linspace 0 1 n) as [ts|e]; [|reflexivity].
  unfold bind. f_equal. unfold np.column_stack.
  rewrite !map_map, !zipWith_map, combine_map_fst_snd.
  apply map_ext. intros t. reflexivity.
Qed.

Lemma set_last_snoc {A : Type} (l : list A) (x v : A) :
  set_last (l ++ [x]) v = l ++ [v].
Proof.
  induction l as [|a l IH]; [reflexivity|].
  simpl app. simpl set_last. rewrite IH.
  destruct (l ++ [x]) eqn:E; [|reflexivity].
  destruct l; discriminate.
Qed.

Lemma linspace_negative (start stop : R) (n : Z) :
  (n < 0)%Z -> raises (np.linspace start stop n).
Proof.
  intros H. unfold np.linspace. destruct (Z.ltb_spec n 0); [|lia].
  eexists. reflexivity.
Qed.

Lemma linspace_zero : np.linspace 0 1 0 = Return [].
Proof. reflexivity. Qed.

Lemma linspace_one : np.linspace 0 1 1 = Return [0].
Proof.
  unfold np.linspace. simpl. do 2 f_equal. ring.
Qed.

Lemma linspace_unit (n : Z) :
  (2 <= n)%Z ->
  np.linspace 0 1 n = Return (map (sample_t n) (seq 0 (Z.to_nat n))).
Proof.
  intros Hn. unfold np.linspace.
  destruct (Z.ltb_spec n 0); [lia|].
  destruct (Z.ltb_spec 0 (n - 1)); [|lia].
  destruct (Z.ltb_spec 1 n); [|lia].
  assert (0 < IZR (n - 1)) as Hpos by (apply IZR_lt; lia).
  rewrite Reqb_false.
  2:{ unfold Rdiv. apply Rmult_integral_contrapositive_currified; [lra|].
      apply Rinv_neq_0_compat. lra. }
  rewrite !map_map. f_equal.
  assert (forall k, INR k * ((1 - 0) / IZR (n - 1)) + 0 = sample_t n k) as Hk
    by (intros k; unfold sample_t; field; lra).
  rewrite (map_ext _ _ Hk).
  destruct (Z.to_nat n) as [|m] eqn:Em; [lia|].
  rewrite seq_S, map_app. simpl map at 2. rewrite set_last_snoc.
  simpl map. f_equal. f_equal. unfold sample_t.
  replace (IZR (n - 1)) with (INR m).
  - field. apply not_0_INR. lia.
  - rewrite INR_IZR_INZ. f_equal. lia.
Qed.

(** ** Lines that cannot turn, and repeated vertices *)

Lemma in_adj {A : Type} (a b : A) (l : list A) :
  In (a, b) (adj l) -> In a l /\ In b l.
Proof.
  induction l as [|x [|y l] IH]; try (simpl; contradiction).
  rewrite adj_cons2. intros [H|H].
  - injection H as -> ->. split; [now left | right; now left].
  - apply IH in H. destruct H. split; now right.
Qed.

Lemma adj_app_cons {A : Type} (l1 l2 : list A) (b : A) :
  adj (l1 ++ b :: l2) = adj (l1 ++ [b]) ++ adj (b :: l2).
Proof.
  induction l1 as [|x [|y l1] IH]; try reflexivity.
  change ((x :: y :: l1) ++ b :: l2) with (x :: y :: (l1 ++ b :: l2)).
  change ((x :: y :: l1) ++ [b]) with (x :: y :: (l1 ++ [b])).
  rewrite !adj_cons2. simpl app. f_equal. exact IH.
Qed.

Lemma line_bearings_unfold (line : list Point) :
  line_bearings line =
  map (fun s => bearing_of (fst s) (snd s))
      (filter (fun s => nonzero_length (seg_disp s)) (adj line)).
Proof.
  unfold line_bearings, displacements.
  change (fun s : Point * Point => (fst (snd s) - fst (fst s), snd (snd s) - snd (fst s)))
    with seg_disp.
  rewrite filter_map_comm, map_map. reflexivity.
Qed.

Lemma line_bearings_app_cons (l1 l2 : list Point) (b : Point) :
  line_bearings (l1 ++ b :: l2) = line_bearings (l1 ++ [b]) ++ line_bearings (b :: l2).
Proof.
  rewrite !line_bearings_unfold, adj_app_cons, filter_app, map_app. reflexivity.
Qed.

Lemma seg_disp_nonzero (a b : Point) :
  a <> b -> nonzero_length (seg_disp (a, b)) = true.
Proof.
  intros H. destruct a as [xa ya], b as [xb yb]. unfold seg_disp. simpl.
  apply nonzero_length_true.
  destruct (Req_dec_T xb xa) as [->|Hx]; [|left; lra].
  right. intros Hy. apply H. f_equal. lra.
Qed.

Lemma seg_disp_zero (b : Point) : nonzero_length (seg_disp (b, b)) = false.
Proof.
  destruct b as [x y]. unfold seg_disp. simpl. apply nonzero_length_false; ring.
Qed.

Lemma line_bearings_cons_distinct (a b : Point) (l : list Point) :
  a <> b -> line_bearings (a :: b :: l) = bearing_of a b :: line_bearings (b :: l).
Proof.
  intros H. rewrite !line_bearings_unfold, adj_cons2. simpl filter.
  now rewrite (seg_disp_nonzero a b H).
Qed.

Lemma line_bearings_cons_repeat (b : Point) (l : list Point) :
  line_bearings (b :: b :: l) = line_bearings (b :: l).
Proof.
  rewrite !line_bearings_unfold, adj_cons2. simpl filter.
  now rewrite seg_disp_zero.
Qed.

Lemma line_bearings_repeat (b : Point) (k : nat) (l : list Point) :
  line_bearings (b :: repeat b k ++ l) = line_bearings (b :: l).
Proof.
  induction k as [|k IH]; [reflexivity|].
  simpl repeat. simpl app. now rewrite line_bearings_cons_repeat.
Qed.

Lemma line_turns_repeat (l1 l2 : list Point) (b : Point) (k : nat) :
  line_turns (l1 ++ b :: repeat b k ++ l2) = line_turns (l1 ++ b :: l2).
Proof.
  unfold line_turns.
  now rewrite (line_bearings_app_cons l1 (repeat b k ++ l2)), line_bearings_repeat,
    <- line_bearings_app_cons.
Qed.

Lemma line_turns_through (l1 l2 : list Point) (a b c : Point) :
  a <> b -> b <> c ->
  line_turns (l1 ++ a :: b :: c :: l2) =
  line_turns (l1 ++ [a; b])
    ++ turn_angle (bearing_of a b) (bearing_of b c) :: line_turns (b :: c :: l2).
Proof.
  intros Hab Hbc. unfold line_turns.
  rewrite (line_bearings_app_cons l1 (b :: c :: l2) a).
  rewrite (line_bearings_cons_distinct a b (c :: l2) Hab).
  rewrite (line_bearings_app_cons l1 [b] a).
  rewrite (line_bearings_cons_distinct a b [] Hab).
  rewrite (line_bearings_cons_distinct b c l2 Hbc).
  replace (line_bearings [b]) with (@nil R) by reflexivity.
  rewrite (adj_app_cons (line_bearings (l1 ++ [a])) _ (bearing_of a b)).
  rewrite adj_cons2, map_app. reflexivity.
Qed.

Lemma Rsum_app (l1 l2 : list R) : Rsum (l1 ++ l2) = Rsum l1 + Rsum l2.
Proof.
  unfold Rsum. induction l1 as [|x l1 IH]; simpl; [ring | rewrite IH; ring].
Qed.

Lemma filter_none {A : Type} (p : A -> bool) (l : list A) :
  (forall x, In x l -> p x = false) -> filter p l = [].
Proof.
  induction l as [|a l IH]; intros H; simpl; [reflexivity|].
  rewrite (H a) by now left. apply IH. intros x Hx. apply H. now right.
Qed.

Lemma degenerate_line_turns (line : list Point) :
  degenerate line -> line_turns line = [].
Proof.
  intros Hd. unfold line_turns. rewrite line_bearings_unfold.
  rewrite filter_none; [reflexivity|].
  intros [a b] Hs. apply in_adj in Hs. destruct Hs as [Ha Hb].
  rewrite (Hd a b Ha Hb). apply seg_disp_zero.
Qed.

Lemma degenerate_line_total (line : list Point) :
  degenerate line -> line_total line = 0.
Proof. intros Hd. unfold line_total. now rewrite degenerate_line_turns. Qed.

Lemma line_turns_short (line : list Point) :
  (length line <= 2)%nat -> line_turns line = [].
Proof.
  intros H. unfold line_turns. rewrite line_bearings_unfold.
  destruct line as [|a [|b [|c l]]]; try reflexivity; [|simpl in H; lia].
  rewrite adj_cons2, adj_one. simpl filter.
  destruct (nonzero_length (seg_disp (a, b))); reflexivity.
Qed.

Lemma all_degenerate_turning_unshared (gdf : GeoDataFrame) :
  (forall g, In g (gdf_geometry gdf) -> degenerate (shapely.coords g)) ->
  turning_unshared gdf.
Proof.
  intros Hd p q Hp Hq Ht _. exfalso. apply Ht. apply degenerate_line_turns.
  apply Hd. unfold gdf_geometry. apply in_map. now apply nth_In.
Qed.

Lemma length_get_coordinates_from (i : nat) (geoms : list shapely.Geometry) :
  length (shapely.get_coordinates_from i geoms)
  = fold_right (fun g n => (length (shapely.coords g) + n)%nat) 0%nat geoms.
Proof.
  revert i. induction geoms as [|g gs IH]; intros i; simpl; [reflexivity|].
  now rewrite length_app, length_map, IH.
Qed.

Lemma few_vertices_turning_unshared (gdf : GeoDataFrame) :
  (length (fst (shapely.get_coordinates (gdf_geometry gdf))) < 2)%nat ->
  turning_unshared gdf.
Proof.
  unfold shapely.get_coordinates. cbn [fst]. rewrite length_map, length_get_coordinates_from.
  intros Hlen p q Hp Hq Ht _. exfalso. apply Ht. apply line_turns_short.
  assert (In (snd (nth p gdf no_row)) (gdf_geometry gdf)) as Hin
    by (unfold gdf_geometry; apply in_map; now apply nth_In).
  revert Hin Hlen. generalize (snd (nth p gdf no_row)). generalize (gdf_geometry gdf).
  intros gs g. induction gs as [|g' gs IH]; simpl; [contradiction|].
  intros [->|Hin] H; [lia|]. apply IH; [exact Hin | lia].
Qed.

Lemma line_total_right_angle : line_total right_angle_line = 90.
Proof.
  unfold line_total, right_angle_line. rewrite line_turns_right_angle.
  simpl. ring.
Qed.

(** C1. For adjacent segments of one line with bearings [b1], [b2] in
    [0, 360), the aggregator's turn is
    [abs (((b2 - b1 + 180) mod 360) - 180)]: the value it assigns to a row
    is the sum of that expression over the consecutive pairs of the line's
    bearings, which lie in [0, 360); the turn lies in [0, 180] and is the
    smallest unsigned angular difference (the least [|b2 - b1 + 360 k|],
    equal to [min |b2 - b1| (360 - |b2 - b1|)]); bearings 350 then 10 give
    20, not 340. *)
Theorem turn_is_smallest_unsigned_difference (gdf : GeoDataFrame) (b1 b2 : R) :
  0 <= b1 < 360 -> 0 <= b2 < 360 ->
  (let s :=
     line_sums 0
       (map (fun g =>
               map (fun bb => Rabs (np.remainder (snd bb - fst bb + 180) 360 - 180))
                   (adj (line_bearings (shapely.coords g))))
            (gdf_geometry gdf)) in
   total_bearing_change_planar gdf =
   pd.loc_setitem (pd.Series_const 0 (gdf_index gdf))
     (map (fun i => nth i (gdf_index gdf) 0%Z) (map fst s)) (map snd s))
  /\ (NoDup (gdf_index gdf) ->
      total_bearing_change_planar gdf =
      Return (pd.mkSeries (gdf_index gdf)
        (map (fun g =>
                Rsum (map (fun bb => Rabs (np.remainder (snd bb - fst bb + 180) 360 - 180))
                          (adj (line_bearings (shapely.coords g)))))
             (gdf_geometry gdf))))
  /\ (forall g b, In g (gdf_geometry gdf) ->
                  In b (line_bearings (shapely.coords g)) -> 0 <= b < 360)
  /\ turn_angle b1 b2 = Rabs (np.remainder (b2 - b1 + 180) 360 - 180)
  /\ 0 <= turn_angle b1 b2 <= 180
  /\ turn_angle b1 b2 = Rmin (Rabs (b2 - b1)) (360 - Rabs (b2 - b1))
  /\ (forall k : Z, turn_angle b1 b2 <= Rabs (b2 - b1 + 360 * IZR k))
  /\ (exists k : Z, turn_angle b1 b2 = Rabs (b2 - b1 + 360 * IZR k))
  /\ turn_angle 350 10 = 20
  /\ turn_angle 350 10 <> 340.
Proof.
  intros H1 H2.
  split; [apply total_bearing_change_planar_per_line|].
  split; [apply total_bearing_change_planar_unique|].
  split.
  { intros g b _ Hb. unfold line_bearings in Hb. apply in_map_iff in Hb.
    destruct Hb as [d [<- _]]. apply bearing_range. }
  split; [reflexivity|].
  split; [apply turn_angle_range|].
  split; [now apply turn_angle_min|].
  split; [apply turn_angle_least|].
  split; [apply turn_angle_shift|].
  rewrite turn_angle_350_10. split; [reflexivity | lra].
Qed.

Lemma turn_is_smallest_unsigned_difference_witness :
  0 <= 350 < 360 /\ 0 <= 10 < 360
  /\ 0 <= turn_angle 350 10 <= 180
  /\ turn_angle 350 10 = Rmin (Rabs (10 - 350)) (360 - Rabs (10 - 350)).
Proof.
  assert (0 <= 350 < 360) as H1 by lra.
  assert (0 <= 10 < 360) as H2 by lra.
  pose proof (turn_is_smallest_unsigned_difference
                [(0%Z, shapely.mkGeometry right_angle_line)] 350 10 H1 H2) as T.
  split; [exact H1|]. split; [exact H2|]. split; apply T.
Defined.

(** C3 (the code at a failing input).  Two rows share the label 7 and the
    first one turns: the label-based assignment selects both rows for one
    value and raises, where the result should list 7, 7 with 90.0 and 0.0.
    With distinct labels the same geometry is aggregated, and when no row
    turns the early return keeps the duplicated labels. *)
Theorem duplicate_identifier_raises :
  total_bearing_change_planar
    [(7%Z, shapely.mkGeometry right_angle_line); (7%Z, shapely.mkGeometry straight_line)]
  = Raise (ValueError
      "cannot set using a list-like indexer with a different length than the value")
  /\ total_bearing_change_planar
       [(7%Z, shapely.mkGeometry right_angle_line); (8%Z, shapely.mkGeometry straight_line)]
     = Return (pd.mkSeries [7%Z; 8%Z] [90; 0])
  /\ total_bearing_change_planar
       [(7%Z, shapely.mkGeometry straight_line); (7%Z, shapely.mkGeometry straight_line)]
     = Return (pd.mkSeries [7%Z; 7%Z] [0; 0]).
Proof.
  assert (line_turns straight_line = []) as Hs by (apply line_turns_short; simpl; lia).
  repeat split.
  - rewrite total_bearing_change_planar_per_line. cbn [gdf_geometry gdf_index map fst snd shapely.coords].
    fold right_angle_line. rewrite Hs. unfold right_angle_line. rewrite line_turns_right_angle.
    reflexivity.
  - rewrite total_bearing_change_planar_unique.
    + cbn [gdf_geometry gdf_index map fst snd shapely.coords].
      rewrite line_total_right_angle. unfold line_total. rewrite Hs. reflexivity.
    + repeat constructor; simpl; intuition discriminate.
  - rewrite total_bearing_change_planar_per_line. cbn [gdf_geometry gdf_index map fst snd shapely.coords].
    rewrite Hs. reflexivity.
Qed.

(** Degenerate geometry alone never makes the aggregator raise.  A
    collection with fewer than two vertices in total, and a collection
    whose lines all have at most one vertex or only identical vertices,
    yield 0.0 for every identifier.  In a collection that also has lines
    that turn, the aggregator returns a value for every row as long as no
    turning line shares its label with another row (so whenever the labels
    are pairwise distinct), and every degenerate line has 0.0. *)
Theorem degenerate_geometry_contributes_zero (gdf : GeoDataFrame) :
  ((length (fst (shapely.get_coordinates (gdf_geometry gdf))) < 2)%nat ->
   total_bearing_change_planar gdf = Return (pd.Series_const 0 (gdf_index gdf)))
  /\ ((forall g, In g (gdf_geometry gdf) -> degenerate (shapely.coords g)) ->
      total_bearing_change_planar gdf = Return (pd.Series_const 0 (gdf_index gdf)))
  /\ (turning_unshared gdf ->
      exists out,
        total_bearing_change_planar gdf = Return out
        /\ pd.index out = gdf_index gdf
        /\ length (pd.values out) = length gdf
        /\ forall i, (i < length gdf)%nat ->
             degenerate (shapely.coords (snd (nth i gdf no_row))) ->
             nth i (pd.values out) 0 = 0)
  /\ (NoDup (gdf_index gdf) -> turning_unshared gdf).
Proof.
  split; [|split; [|split]].
  - intros Hlen. unfold total_bearing_change_planar, shapely.get_coordinates in *.
    cbn [fst] in Hlen. apply Nat.ltb_lt in Hlen. now rewrite Hlen.
  - intros Hd.
    rewrite total_bearing_change_planar_unshared
      by now apply all_degenerate_turning_unshared.
    unfold pd.Series_const, gdf_index, gdf_geometry. f_equal. f_equal.
    rewrite !map_map. apply map_ext_in. intros [id g] Hin. cbn [fst snd].
    apply degenerate_line_total. apply Hd. unfold gdf_geometry.
    apply (in_map snd) in Hin. exact Hin.
  - intros Hu. eexists. split; [now apply total_bearing_change_planar_unshared|].
    cbn [pd.index pd.values]. unfold gdf_geometry. rewrite map_map, length_map.
    repeat split. intros i Hi Hd.
    change 0 with ((fun x : Z * shapely.Geometry => line_total (shapely.coords (snd x))) no_row)
      at 1.
    rewrite map_nth. now apply degenerate_line_total.
  - apply NoDup_turning_unshared.
Qed.

Lemma degenerate_geometry_contributes_zero_witness :
  (forall g, In g (gdf_geometry single_point_collection) -> degenerate (shapely.coords g))
  /\ total_bearing_change_planar single_point_collection
     = Return (pd.Series_const 0 (gdf_index single_point_collection))
  /\ turning_unshared mixed_collection
  /\ exists out,
       total_bearing_change_planar mixed_collection = Return out
       /\ pd.index out = gdf_index mixed_collection
       /\ length (pd.values out) = length mixed_collection
       /\ forall i, (i < length mixed_collection)%nat ->
            degenerate (shapely.coords (snd (nth i mixed_collection no_row))) ->
            nth i (pd.values out) 0 = 0.
Proof.
  assert (forall g, In g (gdf_geometry single_point_collection) ->
                    degenerate (shapely.coords g)) as Hd.
  { intros g [<-|[<-|[]]] p q; simpl; intuition congruence. }
  assert (NoDup (gdf_index mixed_collection)) as Hnd.
  { repeat constructor; simpl; intuition discriminate. }
  pose proof (degenerate_geometry_contributes_zero single_point_collection) as [_ [T1 _]].
  pose proof (degenerate_geometry_contributes_zero mixed_collection) as [_ [_ [T2 T3]]].
  split; [exact Hd|]. split; [exact (T1 Hd)|].
  split; [exact (T3 Hnd)|]. exact (T2 (T3 Hnd)).
Defined.

(** C5 (the code at a failing input).  A degenerate line does not always
    contribute 0.0: here it shares the label 7 with a line that turns, the
    label-based assignment selects both rows for the one value 90.0 and
    raises, so the degenerate line's identifier gets an error.  With
    distinct labels the same geometry gives 90.0 and 0.0. *)
Theorem degenerate_line_under_shared_label_raises :
  degenerate [(4, 4); (4, 4)]
  /\ total_bearing_change_planar
       [(7%Z, shapely.mkGeometry right_angle_line);
        (7%Z, shapely.mkGeometry [(4, 4); (4, 4)])]
     = Raise (ValueError
         "cannot set using a list-like indexer with a different length than the value")
  /\ total_bearing_change_planar
       [(7%Z, shapely.mkGeometry right_angle_line);
        (8%Z, shapely.mkGeometry [(4, 4); (4, 4)])]
     = Return (pd.mkSeries [7%Z; 8%Z] [90; 0]).
Proof.
  assert (degenerate [(4, 4); (4, 4)]) as Hd
    by (intros p q [<-|[<-|[]]] [<-|[<-|[]]]; reflexivity).
  pose proof (degenerate_line_turns _ Hd) as Hs.
  split; [exact Hd|]. split.
  - rewrite total_bearing_change_planar_per_line.
    cbn [gdf_geometry gdf_index map fst snd shapely.coords].
    rewrite Hs. unfold right_angle_line. rewrite line_turns_right_angle.
    reflexivity.
  - rewrite total_bearing_change_planar_unique.
    + cbn [gdf_geometry gdf_index map fst snd shapely.coords].
      rewrite line_total_right_angle. unfold line_total. rewrite Hs. reflexivity.
    + repeat constructor; simpl; intuition discriminate.
Qed.

(** C6. A single line (0,0) -> (0,10) -> (10,10), due North then due East,
    with bearings measured clockwise from North as
    [(degrees (atan2 dx dy) + 360) mod 360], has total turn 90.0. *)
Theorem right_angle_turn_is_90 (id : Z) :
  total_bearing_change_planar [(id, shapely.mkGeometry [(0, 0); (0, 10); (10, 10)])]
  = Return (pd.mkSeries [id] [90])
  /\ bearing (0 - 0) (10 - 0)
     = np.remainder (np.degrees (np.arctan2 (0 - 0) (10 - 0)) + 360) 360
  /\ bearing (0 - 0) (10 - 0) = 0
  /\ bearing (10 - 0) (10 - 10) = 90.
Proof.
  repeat split.
  - rewrite total_bearing_change_planar_unique.
    + cbn [gdf_geometry gdf_index map fst snd shapely.coords].
      fold right_angle_line. now rewrite line_total_right_angle.
    + constructor; [intros [] | constructor].
  - replace (0 - 0) with 0 by ring. replace (10 - 0) with 10 by ring.
    apply bearing_north. lra.
  - replace (10 - 10) with 0 by ring. replace (10 - 0) with 10 by ring.
    apply bearing_east. lra.
Qed.

(** C10. Zero-length segments between two non-degenerate segments do not
    break the turn chain: with the vertex [b] repeated between [a <> b] and
    [c <> b], the line's turns are those up to the segment [a -> b], the
    turn between the bearings of [a -> b] and [b -> c], and those from
    [b -> c] on; that turn is part of the row's total, and the outcome on
    any collection is the one obtained with the repeated vertices removed. *)
Theorem repeated_vertex_keeps_turn_chain
  (pre post : GeoDataFrame) (id : Z) (l1 l2 : list Point) (a b c : Point) (k : nat) :
  a <> b -> b <> c ->
  line_turns (l1 ++ a :: b :: repeat b (S k) ++ c :: l2)
  = line_turns (l1 ++ [a; b])
      ++ turn_angle (bearing_of a b) (bearing_of b c) :: line_turns (b :: c :: l2)
  /\ total_bearing_change_planar
       [(id, shapely.mkGeometry (l1 ++ a :: b :: repeat b (S k) ++ c :: l2))]
     = Return (pd.mkSeries [id]
         [line_total (l1 ++ [a; b])
          + turn_angle (bearing_of a b) (bearing_of b c)
          + line_total (b :: c :: l2)])
  /\ total_bearing_change_planar
       (pre ++ (id, shapely.mkGeometry (l1 ++ a :: b :: repeat b (S k) ++ c :: l2)) :: post)
     = total_bearing_change_planar
         (pre ++ (id, shapely.mkGeometry (l1 ++ a :: b :: c :: l2)) :: post).
Proof.
  intros Hab Hbc.
  assert (line_turns (l1 ++ a :: b :: repeat b (S k) ++ c :: l2)
          = line_turns (l1 ++ a :: b :: c :: l2)) as Hrep.
  { replace (l1 ++ a :: b :: repeat b (S k) ++ c :: l2)
      with ((l1 ++ [a]) ++ b :: repeat b (S k) ++ c :: l2)
      by (now rewrite <- app_assoc).
    rewrite line_turns_repeat, <- app_assoc. reflexivity. }
  repeat split.
  - rewrite Hrep. now apply line_turns_through.
  - rewrite total_bearing_change_planar_unique.
    + cbn [gdf_geometry gdf_index map fst snd shapely.coords].
      unfold line_total at 1. rewrite Hrep, line_turns_through by assumption.
      rewrite Rsum_app. simpl Rsum. unfold line_total, Rsum.
      do 3 f_equal. ring.
    + constructor; [intros [] | constructor].
  - rewrite !total_bearing_change_planar_per_line. cbv zeta.
    unfold gdf_index, gdf_geometry. rewrite !map_app. cbn [map fst snd shapely.coords].
    now rewrite Hrep.
Qed.

Lemma repeated_vertex_keeps_turn_chain_witness :
  (0, 0) <> ((0, 10) : Point) /\ (0, 10) <> ((10, 10) : Point)
  /\ total_bearing_change_planar
       [(0%Z, shapely.mkGeometry ([] ++ (0, 0) :: (0, 10) :: repeat (0, 10) 1 ++ (10, 10) :: []))]
     = Return (pd.mkSeries [0%Z]
         [line_total ([] ++ [(0, 0); (0, 10)])
          + turn_angle (bearing_of (0, 0) (0, 10)) (bearing_of (0, 10) (10, 10))
          + line_total [(0, 10); (10, 10)]]).
Proof.
  assert ((0, 0) <> ((0, 10) : Point)) as Hab
    by (intros H; apply (f_equal snd) in H; simpl in H; lra).
  assert ((0, 10) <> ((10, 10) : Point)) as Hbc
    by (intros H; apply (f_equal fst) in H; simpl in H; lra).
  split; [exact Hab|]. split; [exact Hbc|].
  exact (proj1 (proj2 (repeated_vertex_keeps_turn_chain [] [] 0%Z [] []
                         (0, 0) (0, 10) (10, 10) 0 Hab Hbc))).
Defined.

(** ** Claims about the generator *)

Lemma LineString_two (l : list Point) :
  (2 <= length l)%nat -> shapely.LineString l = Return (shapely.mkGeometry l).
Proof.
  destruct l as [|a [|b l]]; simpl; intros H; try lia; reflexivity.
Qed.

Lemma nth_map_seq {A : Type} (f : nat -> A) (N k : nat) (d : A) :
  (k < N)%nat -> nth k (map f (seq 0 N)) d = f k.
Proof.
  intros H. rewrite (nth_indep _ d (f 0%nat)) by (now rewrite length_map, length_seq).
  rewrite map_nth, seq_nth by exact H. reflexivity.
Qed.

Lemma create_wiggly_line_returns (p0 p1 : Point) (n : Z) (amp : R) :
  p0 <> p1 -> (2 <= n)%Z ->
  create_wiggly_line p0 p1 n amp =
  Return (shapely.mkGeometry
            (map (fun k => wiggly_point p0 p1 amp (sample_t n k)) (seq 0 (Z.to_nat n)))).
Proof.
  intros Hne Hn. rewrite create_wiggly_line_linspace by exact Hne.
  rewrite linspace_unit by exact Hn. unfold bind. rewrite map_map.
  apply LineString_two. rewrite length_map, length_seq. lia.
Qed.

Lemma sample_t_first (n : Z) : sample_t n 0 = 0.
Proof. unfold sample_t. simpl. unfold Rdiv. ring. Qed.

Lemma sample_t_last (n : Z) : (2 <= n)%Z -> sample_t n (Z.to_nat n - 1) = 1.
Proof.
  intros H. unfold sample_t. rewrite INR_IZR_INZ.
  replace (Z.of_nat (Z.to_nat n - 1)) with (n - 1)%Z by lia.
  field. apply not_0_IZR. lia.
Qed.

Lemma sample_t_step (n : Z) (k : nat) :
  (2 <= n)%Z -> sample_t n (S k) - sample_t n k = 1 / IZR (n - 1).
Proof.
  intros H. unfold sample_t. rewrite S_INR. field. apply not_0_IZR. lia.
Qed.

Lemma sample_t_increasing (n : Z) (j k : nat) :
  (2 <= n)%Z -> (j < k)%nat -> sample_t n j < sample_t n k.
Proof.
  intros H Hjk. unfold sample_t, Rdiv.
  apply Rmult_lt_compat_r.
  - apply Rinv_0_lt_compat. apply IZR_lt. lia.
  - now apply lt_INR.
Qed.

Lemma sample_t_unit_interval (n : Z) (k : nat) :
  (2 <= n)%Z -> (k < Z.to_nat n)%nat -> 0 <= sample_t n k <= 1.
Proof.
  intros H Hk. split.
  - rewrite <- (sample_t_first n). destruct k; [lra|].
    left. apply sample_t_increasing; [exact H | lia].
  - rewrite <- (sample_t_last n H).
    destruct (Nat.eq_dec k (Z.to_nat n - 1)) as [->|Hne]; [lra|].
    left. apply sample_t_increasing; [exact H | lia].
Qed.

Lemma unit_direction_norm (p0 p1 : Point) :
  p0 <> p1 ->
  fst (unit_direction p0 p1) * fst (unit_direction p0 p1)
  + snd (unit_direction p0 p1) * snd (unit_direction p0 p1) = 1.
Proof.
  intros Hne. unfold unit_direction. cbn [fst snd].
  set (dx := fst p1 - fst p0). set (dy := snd p1 - snd p0).
  assert (np.hypot dx dy <> 0) as HL
    by (intros H; apply Hne; now apply hypot_points).
  assert (np.hypot dx dy * np.hypot dx dy = dx * dx + dy * dy) as Hsq.
  { unfold np.hypot. apply sqrt_sqrt. nra. }
  field_simplify_eq; [|exact HL]. nra.
Qed.

Lemma wiggly_point_start (p0 p1 : Point) (amp : R) : wiggly_point p0 p1 amp 0 = p0.
Proof.
  unfold wiggly_point. replace (2 * PI * 0 * 3) with 0 by ring. rewrite sin_0.
  destruct p0 as [x0 y0]. simpl. f_equal; ring.
Qed.

(** C2. For [p0 <> p1] and [n >= 2] the generator returns a line of
    exactly [n] points; the [k]-th is
    [p0 + t_k (p1 - p0) + amp sin (2 pi t_k 3) (nx, ny)] with
    [t_k = k / (n - 1)]: uniformly spaced over [0, 1], both endpoints
    included, increasing in [k]; [(nx, ny) = (-uy, ux)] is the left-hand
    perpendicular of the unit direction [(ux, uy)]. *)
Theorem create_wiggly_line_points (p0 p1 : Point) (n : Z) (amp : R) :
  p0 <> p1 -> (2 <= n)%Z ->
  let ux := (fst p1 - fst p0) / np.hypot (fst p1 - fst p0) (snd p1 - snd p0) in
  let uy := (snd p1 - snd p0) / np.hypot (fst p1 - fst p0) (snd p1 - snd p0) in
  let nx := - uy in
  let ny := ux in
  exists pts,
    create_wiggly_line p0 p1 n amp = Return (shapely.mkGeometry pts)
    /\ length pts = Z.to_nat n
    /\ (forall k, (k < Z.to_nat n)%nat ->
          nth k pts (0, 0) =
          (fst p0 + sample_t n k * (fst p1 - fst p0)
             + amp * sin (2 * PI * sample_t n k * 3) * nx,
           snd p0 + sample_t n k * (snd p1 - snd p0)
             + amp * sin (2 * PI * sample_t n k * 3) * ny))
    /\ sample_t n 0 = 0
    /\ sample_t n (Z.to_nat n - 1) = 1
    /\ (forall k, sample_t n (S k) - sample_t n k = 1 / IZR (n - 1))
    /\ (forall j k, (j < k)%nat -> sample_t n j < sample_t n k)
    /\ ux * ux + uy * uy = 1
    /\ ux * nx + uy * ny = 0
    /\ ux * ny - uy * nx = 1.
Proof.
  intros Hne Hn ux uy nx ny.
  pose proof (unit_direction_norm p0 p1 Hne) as Hnorm.
  unfold unit_direction in Hnorm. cbn [fst snd] in Hnorm. fold ux uy in Hnorm.
  eexists. split; [now apply create_wiggly_line_returns|].
  split; [now rewrite length_map, length_seq|].
  split; [intros k Hk; now rewrite nth_map_seq|].
  split; [apply sample_t_first|].
  split; [now apply sample_t_last|].
  split; [intros k; now apply sample_t_step|].
  split; [intros j k; now apply sample_t_increasing|].
  subst nx ny. repeat split; lra.
Qed.

Lemma create_wiggly_line_points_witness :
  (1, 2) <> ((4, 6) : Point) /\ (2 <= 3)%Z
  /\ exists pts,
       create_wiggly_line (1, 2) (4, 6) 3 5 = Return (shapely.mkGeometry pts)
       /\ length pts = Z.to_nat 3.
Proof.
  assert ((1, 2) <> ((4, 6) : Point)) as Hne
    by (intros H; apply (f_equal fst) in H; simpl in H; lra).
  assert (2 <= 3)%Z as Hn by lia.
  split; [exact Hne|]. split; [exact Hn|].
  destruct (create_wiggly_line_points (1, 2) (4, 6) 3 5 Hne Hn) as [pts [H1 [H2 _]]].
  exists pts. split; [exact H1 | exact H2].
Defined.

Lemma create_wiggly_line_one (p0 p1 : Point) (amp : R) :
  p0 <> p1 -> create_wiggly_line p0 p1 1 amp = shapely.LineString [p0].
Proof.
  intros Hne. rewrite create_wiggly_line_linspace by exact Hne.
  rewrite linspace_one. unfold bind. simpl map. now rewrite wiggly_point_start.
Qed.

Lemma create_wiggly_line_zero (p0 p1 : Point) (amp : R) :
  p0 <> p1 -> create_wiggly_line p0 p1 0 amp = Return (shapely.mkGeometry []).
Proof.
  intros Hne. rewrite create_wiggly_line_linspace by exact Hne. reflexivity.
Qed.

Lemma create_wiggly_line_negative (p0 p1 : Point) (n : Z) (amp : R) :
  p0 <> p1 -> (n < 0)%Z ->
  create_wiggly_line p0 p1 n amp =
  Raise (ValueError ("Number of samples, " ++ NilZero.string_of_int (Z.to_int n)
                       ++ ", must be non-negative.")).
Proof.
  intros Hne Hn. rewrite create_wiggly_line_linspace by exact Hne.
  unfold np.linspace. destruct (Z.ltb_spec n 0); [reflexivity | lia].
Qed.

(** C4 (counterexample).  With distinct endpoints and [n = 1] the generator
    raises although the distance is not zero, and with equal endpoints the
    message starts with a capital P. *)
Lemma points_must_be_different_counterexample :
  (0, 0) <> ((1, 0) : Point)
  /\ create_wiggly_line (0, 0) (1, 0) 1 5
     = Raise (GEOSException
         "IllegalArgumentException: point array must contain 0 or >1 elements")
  /\ create_wiggly_line (0, 0) (0, 0) 100 5
     <> Raise (ValueError "points must be different").
Proof.
  assert ((0, 0) <> ((1, 0) : Point)) as Hne
    by (intros H; apply (f_equal fst) in H; simpl in H; lra).
  split; [exact Hne|]. split.
  - now rewrite create_wiggly_line_one.
  - rewrite create_wiggly_line_same. discriminate.
Qed.

(** C4 (amended).  The generator raises ValueError "Points must be
    different" exactly when [p0 = p1], that is when the Euclidean distance
    is zero.  For [p0 <> p1] it raises nothing when [n = 0] or [n >= 2];
    the only other errors are those of its library calls: [n = 1], where
    the line constructor rejects a single point, and [n < 0], where the
    sampler rejects the count. *)
Theorem points_must_be_different (p0 p1 : Point) (n : Z) (amp : R) :
  (create_wiggly_line p0 p1 n amp = Raise (ValueError "Points must be different")
   <-> p0 = p1)
  /\ (np.hypot (fst p1 - fst p0) (snd p1 - snd p0) = 0 <-> p0 = p1)
  /\ (p0 <> p1 -> (n = 0 \/ 2 <= n)%Z ->
      exists g, create_wiggly_line p0 p1 n amp = Return g)
  /\ (p0 <> p1 -> n = 1%Z ->
      create_wiggly_line p0 p1 n amp
      = Raise (GEOSException
          "IllegalArgumentException: point array must contain 0 or >1 elements"))
  /\ (p0 <> p1 -> (n < 0)%Z ->
      create_wiggly_line p0 p1 n amp
      = Raise (ValueError ("Number of samples, " ++ NilZero.string_of_int (Z.to_int n)
                             ++ ", must be non-negative."))).
Proof.
  split; [|split; [apply hypot_points|]].
  - split.
    + intros H. destruct (Req_dec_T (np.hypot (fst p1 - fst p0) (snd p1 - snd p0)) 0) as [E|E];
        [now apply hypot_points|].
      assert (p0 <> p1) as Hne by (intros Heq; apply E; now apply hypot_points).
      exfalso.
      destruct (Z.lt_trichotomy n 1) as [Hlt|[->|Hgt]].
      * destruct (Z.lt_trichotomy n 0) as [Hneg|[->|Hpos]]; [| |lia].
        -- rewrite create_wiggly_line_negative in H by assumption. discriminate.
        -- rewrite create_wiggly_line_zero in H by assumption. discriminate.
      * rewrite create_wiggly_line_one in H by assumption. discriminate.
      * rewrite create_wiggly_line_returns in H by (assumption || lia). discriminate.
    + intros <-. apply create_wiggly_line_same.
  - split; [|split].
    + intros Hne [->|Hn]; eexists.
      * now apply create_wiggly_line_zero.
      * now apply create_wiggly_line_returns.
    + intros Hne ->. now rewrite create_wiggly_line_one.
    + intros Hne Hn. now apply create_wiggly_line_negative.
Qed.

Lemma points_must_be_different_witness :
  (0, 0) <> ((3, 4) : Point) /\ (100 = 0 \/ 2 <= 100)%Z
  /\ exists g, create_wiggly_line (0, 0) (3, 4) 100 5 = Return g.
Proof.
  assert ((0, 0) <> ((3, 4) : Point)) as Hne
    by (intros H; apply (f_equal fst) in H; simpl in H; lra).
  assert (100 = 0 \/ 2 <= 100)%Z as Hn by (right; lia).
  split; [exact Hne|]. split; [exact Hn|].
  exact (proj1 (proj2 (proj2 (points_must_be_different (0, 0) (3, 4) 100 5))) Hne Hn).
Defined.




(** C8 (counterexample).  With [n = 1] the generator does not return a
    line: the constructor refuses the single coordinate. *)
Lemma single_sample_counterexample :
  (0, 0) <> ((1, 0) : Point)
  /\ forall g, create_wiggly_line (0, 0) (1, 0) 1 5 <> Return g.
Proof.
  assert ((0, 0) <> ((1, 0) : Point)) as Hne
    by (intros H; apply (f_equal fst) in H; simpl in H; lra).
  split; [exact Hne|]. intros g. rewrite create_wiggly_line_one by exact Hne.
  discriminate.
Qed.

(** C8 (amended).  For [n = 1] and [p0 <> p1] the single sampled parameter
    is 0 and the coordinate array holds exactly one offset point, equal to
    [p0]; the line constructor rejects a one-point sequence, so the
    generator raises instead of returning a line. *)
Theorem single_sample_is_rejected (p0 p1 : Point) (amp : R) :
  p0 <> p1 ->
  np.linspace 0 1 1 = Return [0]
  /\ map (wiggly_point p0 p1 amp) [0] = [p0]
  /\ create_wiggly_line p0 p1 1 amp = shapely.LineString [p0]
  /\ create_wiggly_line p0 p1 1 amp
     = Raise (GEOSException
         "IllegalArgumentException: point array must contain 0 or >1 elements").
Proof.
  intros Hne. split; [apply linspace_one|].
  split; [simpl; now rewrite wiggly_point_start|].
  split; [now apply create_wiggly_line_one|].
  now rewrite create_wiggly_line_one.
Qed.

Lemma single_sample_is_rejected_witness :
  (0, 0) <> ((1, 0) : Point)
  /\ create_wiggly_line (0, 0) (1, 0) 1 5 = shapely.LineString [(0, 0)].
Proof.
  assert ((0, 0) <> ((1, 0) : Point)) as Hne
    by (intros H; apply (f_equal fst) in H; simpl in H; lra).
  split; [exact Hne|].
  exact (proj1 (proj2 (proj2 (single_sample_is_rejected (0, 0) (1, 0) 5 Hne)))).
Defined.

(** C9 (amended).  For [p0 <> p1], [n >= 2] and amplitude 0 every generated
    point is the plain interpolation [p0 + t_k (p1 - p0)], with no
    perpendicular offset, at a parameter [0 <= t_k <= 1] that increases
    strictly with [k]. *)
Theorem zero_amplitude_is_plain_interpolation (p0 p1 : Point) (n : Z) :
  p0 <> p1 -> (2 <= n)%Z ->
  exists pts,
    create_wiggly_line p0 p1 n 0 = Return (shapely.mkGeometry pts)
    /\ length pts = Z.to_nat n
    /\ (forall k, (k < Z.to_nat n)%nat ->
          nth k pts (0, 0)
          = (fst p0 + sample_t n k * (fst p1 - fst p0),
             snd p0 + sample_t n k * (snd p1 - snd p0))
          /\ 0 <= sample_t n k <= 1)
    /\ (forall j k, (j < k)%nat -> sample_t n j < sample_t n k).
Proof.
  intros Hne Hn. eexists. split; [now apply create_wiggly_line_returns|].
  split; [now rewrite length_map, length_seq|].
  split.
  - intros k Hk. rewrite nth_map_seq by exact Hk.
    split; [|now apply sample_t_unit_interval].
    unfold wiggly_point. f_equal; ring.
  - intros j k. now apply sample_t_increasing.
Qed.

Lemma zero_amplitude_is_plain_interpolation_witness :
  (1, 2) <> ((4, 6) : Point) /\ (2 <= 3)%Z
  /\ exists pts,
       create_wiggly_line (1, 2) (4, 6) 3 0 = Return (shapely.mkGeometry pts)
       /\ length pts = Z.to_nat 3.
Proof.
  assert ((1, 2) <> ((4, 6) : Point)) as Hne
    by (intros H; apply (f_equal fst) in H; simpl in H; lra).
  assert (2 <= 3)%Z as Hn by lia.
  split; [exact Hne|]. split; [exact Hn|].
  destruct (zero_amplitude_is_plain_interpolation (1, 2) (4, 6) 3 Hne Hn)
    as [pts [H1 [H2 _]]].
  exists pts. split; [exact H1 | exact H2].
Defined.

(** ** The generator on binary64 numbers *)

Module binary64_facts.
Import PrimFloat SpecFloat FloatOps FloatAxioms.
Local Open Scope float_scope.

Lemma zipWith_map64 {A B C D : Type} (f : B -> C -> D) (g : A -> B) (h : A -> C)
  (l : list A) :
  zipWith f (map g l) (map h l) = map (fun x => f (g x) (h x)) l.
Proof. induction l as [|a l IH]; simpl; [reflexivity | now rewrite IH]. Qed.

Lemma combine_map64 {A B C : Type} (f : C -> A) (g : C -> B) (l : list C) :
  combine (map f l) (map g l) = map (fun x => (f x, g x)) l.
Proof. induction l as [|c l IH]; simpl; [reflexivity | now rewrite IH]. Qed.

(** The function returns the line through [point_at] of every sample. *)
Lemma create_wiggly_line_point_at (m : binary64.libm) (p0 p1 : binary64.Point64)
  (n : Z) (amp : float) (ts : list float) :
  (binary64.hypot m (fst p1 - fst p0) (snd p1 - snd p0) =? 0) = false ->
  binary64.linspace 0 1 n = Return ts ->
  binary64.create_wiggly_line m p0 p1 n amp
  = binary64.LineString (map (binary64.point_at m p0 p1 amp) ts).
Proof.
  intros HL Hts. destruct p0 as [x0 y0], p1 as [x1 y1].
  unfold binary64.create_wiggly_line. cbn [fst snd] in HL. rewrite HL, Hts.
  unfold bind. f_equal.
  rewrite !map_map, !zipWith_map64, combine_map64. reflexivity.
Qed.

Lemma linspace_default : binary64.linspace 0 1 100 = Return binary64.default_samples.
Proof. vm_compute. reflexivity. Qed.

(** A zero amplitude times any sine value is a zero. *)
Lemma zero_times_bounded (s : float) :
  (abs s <=? 1) = true -> 0 * s = 0 \/ 0 * s = -0.
Proof.
  intros H. rewrite leb_spec, abs_spec in H.
  pose proof (mul_spec 0 s) as Hm.
  destruct (Prim2SF s) as [b|b| |b m e] eqn:E.
  - destruct b; [right | left]; apply Prim2SF_inj; rewrite Hm; reflexivity.
  - discriminate H.
  - discriminate H.
  - destruct b; [right | left]; apply Prim2SF_inj; rewrite Hm; reflexivity.
Qed.

(** The assumptions made below on numpy's [sin] and [hypot] hold of some
    pair of functions on doubles. *)
Lemma libm_assumptions_consistent :
  exists m : binary64.libm,
    binary64.hypot m 3 4 = 5
    /\ binary64.sin m (2 * binary64.pi * 0 * 3) = 0
    /\ binary64.sin m (2 * binary64.pi * 1 * 3) = -0x1.a79394c9e8a0ap-51
    /\ forall x, (abs (binary64.sin m x) <=? 1) = true.
Proof.
  exists (binary64.mk_libm (fun x => if x =? 0 then 0 else -0x1.a79394c9e8a0ap-51)
                           (fun x y => sqrt (x * x + y * y))).
  repeat split; try (vm_compute; reflexivity).
  intros x. cbn [binary64.sin]. destruct (x =? 0); vm_compute; reflexivity.
Qed.



(** C9 (counterexample).  On doubles, with endpoints (1, 2) and (4, 6), the
    default [n = 100] and amplitude 0, the second point of the returned
    line, (1.0303030303030303, 2.0404040404040402), is not on the straight
    line through the endpoints, whatever values in [-1, 1] the sine
    takes. *)
Lemma zero_amplitude_off_segment_counterexample :
  (2 <= 100)%Z
  /\ forall m : binary64.libm,
       binary64.hypot m 3 4 = 5 ->
       (forall x, (abs (binary64.sin m x) <=? 1) = true) ->
       exists pts,
         binary64.create_wiggly_line m (1, 2) (4, 6) 100 0 = Return pts
         /\ length pts = 100%nat
         /\ nth 1 pts (0, 0) = (0x1.07c1f07c1f07cp+0, 0x1.052bf5a814afdp+1)
         /\ binary64.collinear (1, 2) (4, 6) (nth 1 pts (0, 0)) = false.
Proof.
  split; [lia|]. intros m Hh Hs.
  exists (map (binary64.point_at m (1, 2) (4, 6) 0) binary64.default_samples).
  split; [|split].
  - rewrite (create_wiggly_line_point_at m (1, 2) (4, 6) 100 0 binary64.default_samples).
    + reflexivity.
    + cbn [fst snd]. change (4 - 1) with 3. change (6 - 2) with 4.
      rewrite Hh. reflexivity.
    + exact linspace_default.
  - rewrite length_map. reflexivity.
  - change (nth 1 (map (binary64.point_at m (1, 2) (4, 6) 0) binary64.default_samples)
              (0, 0))
      with (binary64.point_at m (1, 2) (4, 6) 0 (nth 1 binary64.default_samples 0)).
    unfold binary64.point_at. cbn [fst snd].
    change (4 - 1) with 3. change (6 - 2) with 4. rewrite Hh.
    destruct (zero_times_bounded _
                (Hs (2 * binary64.pi * nth 1 binary64.default_samples 0 * 3)))
      as [E|E]; rewrite E; vm_compute; split; reflexivity.
Qed.

End binary64_facts.

(** * Further properties of the two functions *)

(** ** Angles: scaling, opposite directions, periodicity *)











(** ** Invariants of the result *)

Lemma length_set_nth {A : Type} (i : nat) (v : A) (l : list A) :
  length (set_nth i v l) = length l.
Proof.
  revert i. induction l as [|a l IH]; intros [|i]; simpl; try reflexivity.
  now rewrite IH.
Qed.

Lemma length_fold_set_nth (pvs : list (nat * R)) (vs : list R) :
  length (fold_left (fun vs pv => set_nth (fst pv) (snd pv) vs) pvs vs) = length vs.
Proof.
  revert vs. induction pvs as [|pv pvs IH]; intros vs; simpl; [reflexivity|].
  now rewrite IH, length_set_nth.
Qed.

Lemma loc_setitem_keeps_index (out out' : pd.Series) (labels : list Z) (vals : list R) :
  pd.loc_setitem out labels vals = Return out' ->
  pd.index out' = pd.index out /\ length (pd.values out') = length (pd.values out).
Proof.
  unfold pd.loc_setitem.
  destruct (length (pd.get_indexer (pd.index out) labels) =? length vals)%nat;
    [|discriminate].
  intros H. injection H as <-. cbn [pd.index pd.values].
  split; [reflexivity | apply length_fold_set_nth].
Qed.

(** X1. Whenever the aggregator returns, the result carries exactly the
    collection's labels, in order, and one value per row. *)
Theorem result_keeps_index (gdf : GeoDataFrame) (out : pd.Series) :
  total_bearing_change_planar gdf = Return out ->
  pd.index out = gdf_index gdf /\ length (pd.values out) = length gdf.
Proof.
  rewrite total_bearing_change_planar_per_line. cbv zeta. intros H.
  apply loc_setitem_keeps_index in H. cbn [pd.index pd.values pd.Series_const] in H.
  unfold gdf_index in *. now rewrite !length_map in H.
Qed.

(** ** Bounds *)

Lemma Rsum_bounds (l : list R) (hi : R) :
  (forall x, In x l -> 0 <= x <= hi) -> 0 <= Rsum l <= hi * INR (length l).
Proof.
  induction l as [|x l IH]; intros H.
  - simpl. lra.
  - change (Rsum (x :: l)) with (x + Rsum l). change (length (x :: l)) with (S (length l)).
    rewrite S_INR.
    assert (0 <= x <= hi) by (apply H; now left).
    assert (0 <= Rsum l <= hi * INR (length l)) by (apply IH; intros y Hy; apply H; now right).
    lra.
Qed.

Lemma length_adj {A : Type} (l : list A) : length (adj l) = (length l - 1)%nat.
Proof.
  induction l as [|a [|b l] IH]; try reflexivity.
  rewrite adj_cons2.
  change (length ((a, b) :: adj (b :: l))) with (S (length (adj (b :: l)))).
  rewrite IH.
  change (length (a :: b :: l)) with (S (S (length l))).
  change (length (b :: l)) with (S (length l)). lia.
Qed.

Lemma length_line_turns (line : list Point) :
  (length (line_turns line) <= length line - 2)%nat.
Proof.
  unfold line_turns, line_bearings, displacements.
  rewrite length_map, length_adj, length_map.
  match goal with
  | |- (length (filter ?p ?l) - 1 <= _)%nat =>
      pose proof (filter_length_le p l) as H;
      rewrite length_map, length_adj in H;
      generalize dependent (length (filter p l))
  end.
  intros n Hn. unfold Point in *. lia.
Qed.

Lemma line_total_bounds (line : list Point) :
  0 <= line_total line <= 180 * INR (length line - 2).
Proof.
  unfold line_total.
  assert (0 <= Rsum (line_turns line) <= 180 * INR (length (line_turns line))) as [Hlo Hhi].
  { apply Rsum_bounds. intros x Hx. unfold line_turns in Hx.
    apply in_map_iff in Hx. destruct Hx as [bb [<- _]]. apply turn_angle_range. }
  split; [exact Hlo|].
  apply Rle_trans with (1 := Hhi). apply Rmult_le_compat_l; [lra|].
  apply le_INR, length_line_turns.
Qed.

(** X4. With pairwise distinct labels every row's total is
    non-negative and at most 180 degrees per interior vertex, that is
    [180 * (number of vertices - 2)]. *)
Theorem totals_nonnegative_and_bounded (gdf : GeoDataFrame) (i : nat) :
  NoDup (gdf_index gdf) -> (i < length gdf)%nat ->
  exists out,
    total_bearing_change_planar gdf = Return out
    /\ 0 <= nth i (pd.values out) 0
         <= 180 * INR (length (shapely.coords (snd (nth i gdf no_row))) - 2).
Proof.
  intros Hnd Hi. eexists. split; [now apply total_bearing_change_planar_unique|].
  cbn [pd.values]. unfold gdf_geometry. rewrite map_map.
  assert (nth i (map (fun x : Z * shapely.Geometry => line_total (shapely.coords (snd x))) gdf) 0
          = line_total (shapely.coords (snd (nth i gdf no_row)))) as ->.
  { change 0 with ((fun x : Z * shapely.Geometry => line_total (shapely.coords (snd x))) no_row).
    apply map_nth. }
  apply line_total_bounds.
Qed.

(** ** Single-segment lines *)

(** X3. A collection whose lines all have at most two vertices (a
    single segment each) yields 0.0 for every row, whatever the labels:
    vertex pairs that straddle two lines are not segments and make no
    turn. *)
Theorem single_segment_lines_give_zero (gdf : GeoDataFrame) :
  (forall g, In g (gdf_geometry gdf) -> (length (shapely.coords g) <= 2)%nat) ->
  total_bearing_change_planar gdf = Return (pd.Series_const 0 (gdf_index gdf)).
Proof.
  intros Hs.
  assert (forall g, In g (gdf_geometry gdf) -> line_turns (shapely.coords g) = []) as Hn
    by (intros g Hg; apply line_turns_short; now apply Hs).
  rewrite total_bearing_change_planar_unshared.
  - unfold pd.Series_const, gdf_index, gdf_geometry in *. f_equal. f_equal.
    rewrite !map_map. apply map_ext_in. intros [id g] Hin. cbn [fst snd].
    unfold line_total. rewrite Hn; [reflexivity|]. apply (in_map snd) in Hin. exact Hin.
  - intros p q Hp Hq Ht _. exfalso. apply Ht. apply Hn.
    unfold gdf_geometry. apply in_map. now apply nth_In.
Qed.

(** ** Rows do not interfere *)

(** X5. With pairwise distinct labels the rows do not interfere: the
    result on two collections put one after the other is the result on the
    first followed by the result on the second. *)
Theorem rows_are_independent (gdf1 gdf2 : GeoDataFrame) :
  NoDup (gdf_index (gdf1 ++ gdf2)) ->
  exists v1 v2,
    total_bearing_change_planar gdf1 = Return (pd.mkSeries (gdf_index gdf1) v1)
    /\ total_bearing_change_planar gdf2 = Return (pd.mkSeries (gdf_index gdf2) v2)
    /\ total_bearing_change_planar (gdf1 ++ gdf2)
       = Return (pd.mkSeries (gdf_index gdf1 ++ gdf_index gdf2) (v1 ++ v2)).
Proof.
  intros Hnd.
  assert (gdf_index (gdf1 ++ gdf2) = gdf_index gdf1 ++ gdf_index gdf2) as Hidx
    by (unfold gdf_index; apply map_app).
  rewrite Hidx in Hnd.
  do 2 eexists. split; [|split].
  - apply total_bearing_change_planar_unique. exact (NoDup_app_remove_r _ _ Hnd).
  - apply total_bearing_change_planar_unique. exact (NoDup_app_remove_l _ _ Hnd).
  - rewrite total_bearing_change_planar_unique by now rewrite Hidx.
    rewrite Hidx. unfold gdf_geometry. now rewrite !map_app.
Qed.

(** ** Transforming the lines of a collection *)

Lemma line_sums_ext (i : nat) (Ls Ls' : list (list R)) :
  Forall2 (fun t t' => (t = [] <-> t' = []) /\ Rsum t = Rsum t') Ls Ls' ->
  line_sums i Ls = line_sums i Ls'.
Proof.
  intros H. revert i. induction H as [|t t' Ls Ls' [Hnil Hsum] _ IH]; intros i;
    [reflexivity|].
  simpl. destruct t as [|x t], t' as [|x' t'].
  - apply IH.
  - destruct Hnil as [Hn _]. discriminate (Hn eq_refl).
  - destruct Hnil as [_ Hn]. discriminate (Hn eq_refl).
  - rewrite Hsum, IH. reflexivity.
Qed.

Lemma map_lines_same_sums (f : list Point -> list Point) (gdf : GeoDataFrame) :
  (forall line, (line_turns (f line) = [] <-> line_turns line = [])
                /\ Rsum (line_turns (f line)) = Rsum (line_turns line)) ->
  total_bearing_change_planar (map_lines f gdf) = total_bearing_change_planar gdf.
Proof.
  intros Hf. rewrite !total_bearing_change_planar_per_line. cbv zeta.
  assert (gdf_index (map_lines f gdf) = gdf_index gdf) as ->
    by (unfold gdf_index, map_lines; rewrite map_map; reflexivity).
  rewrite (line_sums_ext 0
             (map (fun g => line_turns (shapely.coords g)) (gdf_geometry (map_lines f gdf)))
             (map (fun g => line_turns (shapely.coords g)) (gdf_geometry gdf)));
    [reflexivity|].
  unfold gdf_geometry, map_lines. rewrite !map_map. cbn [snd shapely.coords].
  induction gdf as [|row gdf IH]; simpl; constructor; [apply Hf | exact IH].
Qed.

Lemma map_lines_same_turns (f : list Point -> list Point) (gdf : GeoDataFrame) :
  (forall line, line_turns (f line) = line_turns line) ->
  total_bearing_change_planar (map_lines f gdf) = total_bearing_change_planar gdf.
Proof.
  intros Hf. apply map_lines_same_sums. intros line. now rewrite Hf.
Qed.

Lemma displacements_translate (v : R * R) (line : list Point) :
  displacements (map (translate v) line) = displacements line.
Proof.
  unfold displacements. rewrite adj_map, map_map.
  apply map_ext. intros [[xa ya] [xb yb]]. unfold translate. cbn [fst snd].
  f_equal; ring.
Qed.



(** ** Reversing a line *)









(** X9. Translating every vertex of every line by the same vector does
    not change the outcome of the aggregator. *)
Theorem translation_invariant (v : R * R) (gdf : GeoDataFrame) :
  total_bearing_change_planar (map_lines (map (translate v)) gdf)
  = total_bearing_change_planar gdf.
Proof.
  apply map_lines_same_turns. intros line.
  unfold line_turns, line_bearings. now rewrite displacements_translate.
Qed.



(** ** Straight lines and doubling back *)









(** ** Compass bearings *)

Lemma bearing_south (d : R) : 0 < d -> bearing 0 (- d) = 180.
Proof.
  intros H. unfold bearing, np.arctan2, np.degrees.
  destruct (Rlt_dec 0 (- d)); [lra|]. destruct (Rlt_dec (- d) 0); [|lra].
  destruct (Rle_dec 0 0); [|lra].
  unfold Rdiv at 1. rewrite Rmult_0_l, atan_0, Rplus_0_l.
  assert (PI * (180 / PI) = 180) as -> by (field; apply PI_neq0).
  rewrite (remainder_eq _ 360 1) by lra. lra.
Qed.

Lemma bearing_west (d : R) : 0 < d -> bearing (- d) 0 = 270.
Proof.
  intros H. unfold bearing, np.arctan2, np.degrees.
  destruct (Rlt_dec 0 0); [lra|].
  destruct (Rlt_dec 0 (- d)); [lra|]. destruct (Rlt_dec (- d) 0); [|lra].
  assert (- (PI / 2) * (180 / PI) = - 90) as -> by (field; apply PI_neq0).
  rewrite (remainder_eq _ 360 0) by lra. lra.
Qed.

Lemma bearing_north_east (d : R) : 0 < d -> bearing d d = 45.
Proof.
  intros H. unfold bearing, np.arctan2, np.degrees.
  destruct (Rlt_dec 0 d); [|lra].
  replace (d / d) with 1 by (field; lra). rewrite atan_1.
  assert (PI / 4 * (180 / PI) = 45) as -> by (field; apply PI_neq0).
  rewrite (remainder_eq _ 360 1) by lra. lra.
Qed.

(** X8. Bearings are measured clockwise from North: a displacement due
    North has bearing 0, North-East 45, East 90, South 180 and West 270,
    whatever its length. *)
Theorem bearing_is_clockwise_from_north (d : R) :
  0 < d ->
  bearing 0 d = 0 /\ bearing d d = 45 /\ bearing d 0 = 90
  /\ bearing 0 (- d) = 180 /\ bearing (- d) 0 = 270.
Proof.
  intros H. repeat split.
  - now apply bearing_north.
  - now apply bearing_north_east.
  - now apply bearing_east.
  - now apply bearing_south.
  - now apply bearing_west.
Qed.

Lemma bearing_is_clockwise_from_north_witness :
  0 < 10 /\ bearing 0 10 = 0 /\ bearing 10 10 = 45 /\ bearing 10 0 = 90
  /\ bearing 0 (- 10) = 180 /\ bearing (- 10) 0 = 270.
Proof.
  assert (0 < 10) as H by lra.
  split; [exact H|]. exact (bearing_is_clockwise_from_north 10 H).
Defined.

(** ** More on the generator *)



(** X12. With distinct endpoints and [n = 0] the generator does not
    raise: it returns the empty line. *)
Theorem zero_samples_give_empty_line (p0 p1 : Point) (amp : R) :
  p0 <> p1 -> create_wiggly_line p0 p1 0 amp = Return (shapely.mkGeometry []).
Proof. apply create_wiggly_line_zero. Qed.



(** X18. The two functions composed: for distinct endpoints and
    [n >= 2] the aggregator accepts the generated line as a one-row
    collection and returns a total between 0 and [180 * (n - 2)]. *)
Theorem generated_line_is_aggregated (id : Z) (p0 p1 : Point) (n : Z) (amp : R) :
  p0 <> p1 -> (2 <= n)%Z ->
  exists g v,
    create_wiggly_line p0 p1 n amp = Return g
    /\ total_bearing_change_planar [(id, g)] = Return (pd.mkSeries [id] [v])
    /\ 0 <= v <= 180 * INR (Z.to_nat n - 2).
Proof.
  intros Hne Hn.
  exists (shapely.mkGeometry
            (map (fun k => wiggly_point p0 p1 amp (sample_t n k)) (seq 0 (Z.to_nat n)))),
         (line_total
            (map (fun k => wiggly_point p0 p1 amp (sample_t n k)) (seq 0 (Z.to_nat n)))).
  split; [now apply create_wiggly_line_returns|].
  split.
  { rewrite total_bearing_change_planar_unique; [reflexivity|].
    constructor; [intros [] | constructor]. }
  match goal with |- 0 <= line_total ?l <= _ => pose proof (line_total_bounds l) as Hb end.
  rewrite length_map, length_seq in Hb. exact Hb.
Qed.

(** ** Witnesses and the outcome of the label assignment *)

(** X2. The final label-based assignment decides the outcome.  If no
    line that turns shares its label with another row, the aggregator
    returns each row's own total under the collection's labels; if some line
    that turns shares its label with another row, the call raises the
    ValueError of the assignment. *)
Theorem label_assignment_outcome (gdf : GeoDataFrame) :
  (turning_unshared gdf ->
   total_bearing_change_planar gdf =
   Return (pd.mkSeries (gdf_index gdf)
             (map (fun g => line_total (shapely.coords g)) (gdf_geometry gdf))))
  /\ (forall p q, (p < length gdf)%nat -> (q < length gdf)%nat -> q <> p ->
        line_turns (shapely.coords (snd (nth p gdf no_row))) <> [] ->
        fst (nth q gdf no_row) = fst (nth p gdf no_row) ->
        total_bearing_change_planar gdf =
        Raise (ValueError
          "cannot set using a list-like indexer with a different length than the value")).
Proof.
  split.
  - apply total_bearing_change_planar_unshared.
  - intros p q. apply shared_turning_label_raises.
Qed.

Lemma label_assignment_outcome_witness :
  total_bearing_change_planar
    [(7%Z, shapely.mkGeometry right_angle_line); (7%Z, shapely.mkGeometry straight_line)]
  = Raise (ValueError
      "cannot set using a list-like indexer with a different length than the value").
Proof.
  apply (proj2 (label_assignment_outcome
                  [(7%Z, shapely.mkGeometry right_angle_line);
                   (7%Z, shapely.mkGeometry straight_line)]) 0%nat 1%nat).
  - simpl. lia.
  - simpl. lia.
  - discriminate.
  - cbn [nth snd shapely.coords]. unfold right_angle_line.
    rewrite line_turns_right_angle. discriminate.
  - reflexivity.
Defined.

Lemma result_keeps_index_witness :
  total_bearing_change_planar mixed_collection
  = Return (pd.mkSeries (gdf_index mixed_collection)
              (map (fun g => line_total (shapely.coords g)) (gdf_geometry mixed_collection)))
  /\ pd.index (pd.mkSeries (gdf_index mixed_collection)
                 (map (fun g => line_total (shapely.coords g)) (gdf_geometry mixed_collection)))
     = gdf_index mixed_collection.
Proof.
  assert (NoDup (gdf_index mixed_collection)) as Hnd
    by (repeat constructor; simpl; intuition discriminate).
  pose proof (total_bearing_change_planar_unique mixed_collection Hnd) as H.
  split; [exact H|]. exact (proj1 (result_keeps_index mixed_collection _ H)).
Defined.

Lemma totals_nonnegative_and_bounded_witness :
  NoDup (gdf_index mixed_collection) /\ (0 < length mixed_collection)%nat
  /\ exists out,
       total_bearing_change_planar mixed_collection = Return out
       /\ 0 <= nth 0 (pd.values out) 0
            <= 180 * INR (length (shapely.coords (snd (nth 0 mixed_collection no_row))) - 2).
Proof.
  assert (NoDup (gdf_index mixed_collection)) as Hnd
    by (repeat constructor; simpl; intuition discriminate).
  assert (0 < length mixed_collection)%nat as Hi by (simpl; lia).
  split; [exact Hnd|]. split; [exact Hi|].
  exact (totals_nonnegative_and_bounded mixed_collection 0 Hnd Hi).
Defined.

Lemma single_segment_lines_give_zero_witness :
  (forall g, In g (gdf_geometry two_segments_one_label) ->
             (length (shapely.coords g) <= 2)%nat)
  /\ total_bearing_change_planar two_segments_one_label
     = Return (pd.Series_const 0 (gdf_index two_segments_one_label)).
Proof.
  assert (forall g, In g (gdf_geometry two_segments_one_label) ->
                    (length (shapely.coords g) <= 2)%nat) as H.
  { intros g [<-|[<-|[]]]; simpl; lia. }
  split; [exact H|]. exact (single_segment_lines_give_zero two_segments_one_label H).
Defined.

Lemma rows_are_independent_witness :
  NoDup (gdf_index ([(1%Z, shapely.mkGeometry right_angle_line)]
                      ++ [(2%Z, shapely.mkGeometry straight_line)]))
  /\ exists v1 v2,
       total_bearing_change_planar [(1%Z, shapely.mkGeometry right_angle_line)]
       = Return (pd.mkSeries (gdf_index [(1%Z, shapely.mkGeometry right_angle_line)]) v1)
       /\ total_bearing_change_planar [(2%Z, shapely.mkGeometry straight_line)]
          = Return (pd.mkSeries (gdf_index [(2%Z, shapely.mkGeometry straight_line)]) v2)
       /\ total_bearing_change_planar
            ([(1%Z, shapely.mkGeometry right_angle_line)]
               ++ [(2%Z, shapely.mkGeometry straight_line)])
          = Return (pd.mkSeries
                      (gdf_index [(1%Z, shapely.mkGeometry right_angle_line)]
                         ++ gdf_index [(2%Z, shapely.mkGeometry straight_line)])
                      (v1 ++ v2)).
Proof.
  assert (NoDup (gdf_index ([(1%Z, shapely.mkGeometry right_angle_line)]
                              ++ [(2%Z, shapely.mkGeometry straight_line)]))) as Hnd
    by (repeat constructor; simpl; intuition discriminate).
  split; [exact Hnd|]. exact (rows_are_independent _ _ Hnd).
Defined.


Lemma zero_samples_give_empty_line_witness :
  (1, 2) <> ((4, 6) : Point)
  /\ create_wiggly_line (1, 2) (4, 6) 0 5 = Return (shapely.mkGeometry []).
Proof.
  assert ((1, 2) <> ((4, 6) : Point)) as Hne
    by (intros H; apply (f_equal fst) in H; simpl in H; lra).
  split; [exact Hne|]. exact (zero_samples_give_empty_line (1, 2) (4, 6) 5 Hne).
Defined.



Lemma generated_line_is_aggregated_witness :
  (1, 2) <> ((4, 6) : Point) /\ (2 <= 100)%Z
  /\ exists g v,
       create_wiggly_line (1, 2) (4, 6) 100 5 = Return g
       /\ total_bearing_change_planar [(0%Z, g)] = Return (pd.mkSeries [0%Z] [v])
       /\ 0 <= v <= 180 * INR (Z.to_nat 100 - 2).
Proof.
  assert ((1, 2) <> ((4, 6) : Point)) as Hne
    by (intros H; apply (f_equal fst) in H; simpl in H; lra).
  assert (2 <= 100)%Z as Hn by lia.
  split; [exact Hne|]. split; [exact Hn|].
  exact (generated_line_is_aggregated 0 (1, 2) (4, 6) 100 5 Hne Hn).
Defined.
